(** * ig-auto-dm: the comment webhook, its dedupe store and the admin surface

    A shallow embedding of [server.js].  The Express handlers become
    functions over an explicit [World] (the in-memory [DB] object, the
    content of [data.json], the clock and the outbound calls issued so far);
    the body of the asynchronous webhook handler, which can throw, runs in a
    small state-and-exception monad.  The first parts take each handler to
    run to its end before the next request is served; the webhook handler
    with its point of suspension at the [await], the event loop that
    interleaves such handlers, and payloads of any shape come after them
    and are tied to the first parts by [post_webhook_uninterrupted]. *)

From Stdlib Require Import ZArith NArith String Ascii List Bool Lia.
From stdpp Require Import base option list gmap.
Import ListNotations.

Local Open Scope Z_scope.

(** ** JavaScript strings

    A JS string is its sequence of UTF-16 code units. *)

Abbreviation jsstr := (list N).

Fixpoint str (s : string) : jsstr :=
  match s with
  | EmptyString => []
  | String a s' => N_of_ascii a :: str s'
  end.

(** [!s] on a string: only the empty string is falsy. *)
Definition str_truthy (s : jsstr) : bool :=
  match s with [] => false | _ :: _ => true end.

(** [!v] on a value that is [undefined] or a string. *)
Definition truthy (v : option jsstr) : bool :=
  match v with Some s => str_truthy s | None => false end.

(** [a || b] on such values. *)
Definition or_else (a b : option jsstr) : option jsstr :=
  if truthy a then a else b.

(** [a || s] with a string on the right. *)
Definition or_default (a : option jsstr) (s : jsstr) : jsstr :=
  match a with
  | Some x => if str_truthy x then x else s
  | None => s
  end.

(** Strict equality [===] on such values. *)
Definition strict_eq (a b : option jsstr) : bool :=
  bool_decide (a = b).

(** ECMAScript WhiteSpace and LineTerminator code units, the ones
    [String.prototype.trim] strips. *)
Definition is_ws (c : N) : bool :=
  ((c =? 9) || (c =? 10) || (c =? 11) || (c =? 12) || (c =? 13) || (c =? 32)
   || (c =? 160) || (c =? 5760) || ((8192 <=? c) && (c <=? 8202))
   || (c =? 8232) || (c =? 8233) || (c =? 8239) || (c =? 8287)
   || (c =? 12288) || (c =? 65279))%N.

Fixpoint trim_start (s : jsstr) : jsstr :=
  match s with
  | [] => []
  | c :: s' => if is_ws c then trim_start s' else s
  end.

Definition trim (s : jsstr) : jsstr :=
  rev (trim_start (rev (trim_start s))).

(** ** The store ([data.json] and the [DB] object) *)

(** The [type] argument of [addLog]; the source passes exactly these four
    literals. *)
Inductive LogType := sent | skip | error | config.

(** One element of [logs]: [{ time, type, msg, ...extra }].  [time] is the
    instant that [new Date().toISOString()] renders, kept as the clock
    reading; [extra] lists the spread properties in order. *)
Record LogEntry := mkLog {
  time : Z;
  type : LogType;
  msg : jsstr;
  extra : list (jsstr * jsstr)
}.

(** [sent_keys] maps a key to the [Date.now()] of the send. *)
Record Store := mkStore {
  dm_text : jsstr;
  sent_keys : gmap jsstr Z;
  logs : list LogEntry
}.

Definition default_dm_text : jsstr :=
  str "Thanks for commenting " ++ [9989%N] ++ str " Here" ++ [8217%N]
  ++ str "s the link: https://yourlink.com".

(** [loadData]: the parsed file, or the built-in document when reading or
    parsing fails. *)
Definition loadData (file : option Store) : Store :=
  match file with
  | Some d => d
  | None => {| dm_text := default_dm_text; sent_keys := ∅; logs := [] |}
  end.

(** [Array.prototype.slice(0, n)]. *)
Definition slice0 {A} (n : nat) (l : list A) : list A := take n l.

(** [addLog(data, type, msg, extra)]: [unshift] the entry, then keep
    [slice(0, 200)].  [now] is the clock reading taken by [new Date()]. *)
Definition addLog (now : Z) (data : Store) (ty : LogType) (m : jsstr)
    (ex : list (jsstr * jsstr)) : Store :=
  let unshifted := {| time := now; type := ty; msg := m; extra := ex |} :: logs data in
  {| dm_text := dm_text data;
     sent_keys := sent_keys data;
     logs := slice0 200 unshifted |}.

(** A run of appends, oldest first; each item carries its clock reading. *)
Definition addLogs (es : list LogEntry) (data : Store) : Store :=
  fold_left (fun d e => addLog (time e) d (type e) (msg e) (extra e)) es data.

(** ** Environment, world and responses *)

(** A thrown [Error] object. *)
Record JsError := mkError { err_name : jsstr; err_message : jsstr }.

(** [String(err)] on an [Error] ([Error.prototype.toString]). *)
Definition error_to_string (e : JsError) : jsstr :=
  if negb (str_truthy (err_name e)) then err_message e
  else if negb (str_truthy (err_message e)) then err_name e
  else err_name e ++ str ": " ++ err_message e.

(** [String(err?.message || err)]. *)
Definition failure_reason (e : JsError) : jsstr :=
  if str_truthy (err_message e) then err_message e else error_to_string e.

(** What the platform does with one outbound call: [fetch] or [r.json()]
    throws, or a response arrives with its [r.ok] flag and a JSON body,
    kept as [JSON.stringify(j)]. *)
Inductive FetchResult :=
| FetchThrows (e : JsError)
| Replied (ok : bool) (j : jsstr).

(** One call of [fetch]: the comment id spliced into the URL and the two
    fields of the JSON body. *)
Record OutCall := mkCall {
  call_comment_id : jsstr;
  call_message : jsstr;
  call_access_token : option jsstr
}.

(** The places in the webhook loop where the engine raises a [TypeError]:
    the value to iterate is not iterable, or a property is read of [null]. *)
Inductive TypeErrorSite :=
| entry_not_iterable
| entry_is_null
| changes_not_iterable
| change_is_null.

(** The process environment and the outside world's answers: the [n]-th
    reading of the clock, the fate of the [n]-th outbound call, and the
    wording the engine gives to its [TypeError]s. *)
Record Env := mkEnv {
  VERIFY_TOKEN : option jsstr;
  PAGE_ACCESS_TOKEN : option jsstr;
  ADMIN_PASSWORD : option jsstr;
  clock : nat -> Z;
  graph : nat -> OutCall -> FetchResult;
  engine_says : TypeErrorSite -> jsstr
}.

(** The mutable state: the [DB] object, the content of [data.json]
    ([None]: no file), how often the clock was read, and the outbound calls
    issued so far, oldest first.  [fs.writeFileSync] is taken to succeed. *)
Record World := mkWorld {
  DB : Store;
  file : option Store;
  clock_reads : nat;
  outbox : list OutCall
}.

(** [let DB = loadData()] at startup. *)
Definition boot (f : option Store) : World :=
  {| DB := loadData f; file := f; clock_reads := 0; outbox := [] |}.

Definition set_DB (d : Store) (w : World) : World :=
  {| DB := d; file := file w; clock_reads := clock_reads w; outbox := outbox w |}.

(** [saveData(DB)]: the file now holds the serialised [DB]. *)
Definition saveData (w : World) : World :=
  {| DB := DB w; file := Some (DB w); clock_reads := clock_reads w; outbox := outbox w |}.

(** Reading the clock ([Date.now()], [new Date()]). *)
Definition read_clock (env : Env) (w : World) : Z * World :=
  (clock env (clock_reads w),
   {| DB := DB w; file := file w; clock_reads := S (clock_reads w); outbox := outbox w |}).

(** [addLog(DB, type, msg, extra)] on the shared object. *)
Definition addLogDB (env : Env) (ty : LogType) (m : jsstr)
    (ex : list (jsstr * jsstr)) (w : World) : World :=
  let '(now, w1) := read_clock env w in
  set_DB (addLog now (DB w1) ty m ex) w1.

(** What a handler sends.  The dashboard page and the redirect are kept as
    the values spliced into them. *)
Inductive Body :=
| Text (s : jsstr)
| Dashboard (safeText : jsstr) (entries : list LogEntry) (pass : option jsstr)
| RedirectToAdmin (pass : option jsstr).

Record Response := mkResponse { status : nat; body : Body }.

(** Reason phrases of the two status codes the program passes to
    [res.sendStatus]; it is called with no other code. *)
Definition status_message (code : nat) : jsstr :=
  match code with
  | 200%nat => str "OK"
  | 403%nat => str "Forbidden"
  | _ => []
  end.

(** Express: [res.sendStatus(c)] is [res.status(c).send(<reason phrase>)]. *)
Definition sendStatus (code : nat) : Response :=
  {| status := code; body := Text (status_message code) |}.

(** [res.status(c).send(v)]; [send(undefined)] ends the response with an
    empty body. *)
Definition send (code : nat) (v : option jsstr) : Response :=
  {| status := code; body := Text (default [] v) |}.

(** ** GET /webhook *)

Record VerifyQuery := mkVerify {
  hub_mode : option jsstr;
  hub_verify_token : option jsstr;
  hub_challenge : option jsstr
}.

Definition get_webhook (env : Env) (q : VerifyQuery) : Response :=
  let mode := hub_mode q in
  let token := hub_verify_token q in
  let challenge := hub_challenge q in
  if strict_eq mode (Some (str "subscribe")) && strict_eq token (VERIFY_TOKEN env)
  then send 200 challenge
  else sendStatus 403.

(** ** The body of the asynchronous handler: state and exceptions *)

Inductive Res (A : Type) :=
| Ret (a : A)
| Throw (e : JsError).
Arguments Ret {A} a.
Arguments Throw {A} e.

Definition M (A : Type) : Type := World -> Res A * World.

Definition ret {A} (a : A) : M A := fun w => (Ret a, w).

Definition bind {A B} (m : M A) (k : A -> M B) : M B :=
  fun w => match m w with
           | (Ret a, w') => k a w'
           | (Throw e, w') => (Throw e, w')
           end.

(** A statement that cannot throw. *)
Definition exec (f : World -> World) : M unit := fun w => (Ret tt, f w).

Notation "m ;;; k" := (bind m (fun _ => k))
  (at level 100, k at level 200, right associativity).

(** [for (const x of xs) body]: an exception leaves the loop. *)
Fixpoint for_of {A} (xs : list A) (f : A -> M unit) : M unit :=
  match xs with
  | [] => ret tt
  | x :: xs' => f x ;;; for_of xs' f
  end.

(** [try { m } catch (err) { h err }]. *)
Definition try_catch (m : M unit) (h : JsError -> World -> World) : World -> World :=
  fun w => match m w with
           | (Ret _, w') => w'
           | (Throw err, w') => h err w'
           end.

(** ** Outbound reply *)

(** [sendPrivateReply(comment_id, message)]: one [fetch]; throws what
    [fetch] or [r.json()] throws, throws [new Error(JSON.stringify(j))]
    when [!r.ok], and returns [j] otherwise. *)
Definition sendPrivateReply (env : Env) (comment_id message : jsstr) : M jsstr :=
  fun w =>
    let call := {| call_comment_id := comment_id;
                   call_message := message;
                   call_access_token := PAGE_ACCESS_TOKEN env |} in
    let w' := {| DB := DB w; file := file w; clock_reads := clock_reads w;
                 outbox := outbox w ++ [call] |} in
    match graph env (length (outbox w)) call with
    | FetchThrows e => (Throw e, w')
    | Replied ok j =>
        if negb ok then (Throw {| err_name := str "Error"; err_message := j |}, w')
        else (Ret j, w')
    end.

(** ** POST /webhook *)

(** The notification payload ([req.body], an object), with every property
    that may be absent; identifiers are strings, as the platform sends
    them; [entry] and [changes], where present, are arrays of objects.  The
    other shapes ([null] items, values that cannot be iterated) are those of
    [RawPayload] below. *)
Record IdRef := mkRef { ref_id : option jsstr }.

Record Value := mkValue {
  value_id : option jsstr;
  value_media : option IdRef;
  value_from : option IdRef
}.

Record Change := mkChange { change_value : option Value }.

Record Entry := mkEntry { entry_changes : option (list Change) }.

Record Payload := mkPayload {
  payload_object : option jsstr;
  payload_entry : option (list Entry)
}.

(** [{}] standing in for a missing [change.value]. *)
Definition empty_value : Value :=
  {| value_id := None; value_media := None; value_from := None |}.

(** A template-literal substitution [${v}]. *)
Definition subst_str (v : option jsstr) : jsstr :=
  match v with Some s => s | None => str "undefined" end.

(** [`${media_id}:${from_id}`]. *)
Definition dedupe_key (media_id from_id : option jsstr) : jsstr :=
  subst_str media_id ++ str ":" ++ subst_str from_id.

(** [DB.sent_keys[key]] as a condition: present and non-zero.  A key
    always holds a ":", so no inherited property of the object is hit. *)
Definition already_sent (d : Store) (key : jsstr) : bool :=
  match sent_keys d !! key with
  | Some t => negb (t =? 0)
  | None => false
  end.

(** [DB.dm_text || "Thanks for commenting ✅"]. *)
Definition reply_message (d : Store) : jsstr :=
  if str_truthy (dm_text d) then dm_text d
  else str "Thanks for commenting " ++ [9989%N].

(** [DB.sent_keys[key] = Date.now()]. *)
Definition mark_sent (env : Env) (key : jsstr) (w : World) : World :=
  let '(now, w1) := read_clock env w in
  set_DB {| dm_text := dm_text (DB w1);
            sent_keys := <[key := now]> (sent_keys (DB w1));
            logs := logs (DB w1) |} w1.

(** The body of the inner loop for one [change]. *)
Definition handle_change (env : Env) (change : Change) : M unit :=
  let value := default empty_value (change_value change) in
  let comment_id := value_id value in
  let media_id := value_media value ≫= ref_id in
  let from_id := value_from value ≫= ref_id in
  if negb (truthy comment_id) || negb (truthy media_id) || negb (truthy from_id)
  then ret tt
  else
    let key := dedupe_key media_id from_id in
    fun w =>
      if already_sent (DB w) key
      then exec (addLogDB env skip (str "Already messaged for this post")
                   [(str "key", key)]) w
      else
        (let message := reply_message (DB w) in
         sendPrivateReply env (subst_str comment_id) message ;;;
         exec (mark_sent env key) ;;;
         exec (addLogDB env sent (str "DM sent via private reply")
                 [(str "key", key); (str "comment_id", subst_str comment_id)]) ;;;
         exec saveData) w.

(** The [try] block. *)
Definition process_payload (env : Env) (body : Payload) : M unit :=
  if negb (strict_eq (payload_object body) (Some (str "instagram"))) then ret tt
  else
    for_of (default [] (payload_entry body)) (fun entry =>
      for_of (default [] (entry_changes entry)) (fun change =>
        handle_change env change)).

(** The [catch] block. *)
Definition on_failure (env : Env) (err : JsError) (w : World) : World :=
  saveData (addLogDB env error (str "Webhook processing failed")
              [(str "error", failure_reason err)] w).

(** The handler: acknowledge, then process; here with no other request
    served while it waits at the [await] ([post_webhook_a] below keeps the
    suspension). *)
Definition post_webhook (env : Env) (body : Payload) (w : World) : Response * World :=
  (sendStatus 200, try_catch (process_payload env body) (on_failure env) w).

(** ** Admin surface *)

Record AdminRequest := mkAdmin {
  query_pass : option jsstr;
  header_x_admin_pass : option jsstr;
  body_dm_text : option jsstr
}.

(** [req.query.pass || req.headers["x-admin-pass"]]. *)
Definition supplied_pass (req : AdminRequest) : option jsstr :=
  or_else (query_pass req) (header_x_admin_pass req).

(** [requireAuth(req, res)]: [Some r] when it answered [r] and returned
    [false], [None] when it returned [true]. *)
Definition requireAuth (env : Env) (req : AdminRequest) : option Response :=
  let pass := supplied_pass req in
  if negb (truthy (ADMIN_PASSWORD env)) || negb (strict_eq pass (ADMIN_PASSWORD env))
  then Some (send 401 (Some (str "Unauthorized. Add ?pass=YOUR_PASSWORD")))
  else None.

(** [s.replace(/</g, "&lt;").replace(/>/g, "&gt;")]. *)
Definition escape_angle (s : jsstr) : jsstr :=
  flat_map (fun c => if (c =? 60)%N then str "&lt;"
                     else if (c =? 62)%N then str "&gt;" else [c]) s.

Definition get_admin (env : Env) (req : AdminRequest) (w : World) : Response * World :=
  match requireAuth env req with
  | Some r => (r, w)
  | None =>
      let safeText := escape_angle (dm_text (DB w)) in
      ({| status := 200; body := Dashboard safeText (logs (DB w)) (query_pass req) |}, w)
  end.

Definition post_admin_save (env : Env) (req : AdminRequest) (w : World) : Response * World :=
  match requireAuth env req with
  | Some r => (r, w)
  | None =>
      let dm_text' := trim (or_default (body_dm_text req) []) in
      let w1 := set_DB {| dm_text := if negb (length dm_text' =? 0)%nat
                                     then dm_text' else dm_text (DB w);
                          sent_keys := sent_keys (DB w);
                          logs := logs (DB w) |} w in
      let w2 := addLogDB env config (str "DM text updated") [] w1 in
      let w3 := saveData w2 in
      ({| status := 302; body := RedirectToAdmin (query_pass req) |}, w3)
  end.

Definition post_admin_reset (env : Env) (req : AdminRequest) (w : World) : Response * World :=
  match requireAuth env req with
  | Some r => (r, w)
  | None =>
      let w1 := set_DB {| dm_text := dm_text (DB w);
                          sent_keys := ∅;
                          logs := logs (DB w) |} w in
      let w2 := addLogDB env config (str "sent_keys reset") [] w1 in
      let w3 := saveData w2 in
      (send 200 (Some (str "Reset done.")), w3)
  end.

(** ** Vocabulary of the statements *)

(** A comment event that carries all three identifiers. *)
Definition comment_event (comment_id post_id commenter_id : jsstr) : Change :=
  {| change_value := Some
       {| value_id := Some comment_id;
          value_media := Some {| ref_id := Some post_id |};
          value_from := Some {| ref_id := Some commenter_id |} |} |}.

(** A webhook delivery with one entry holding the given changes. *)
Definition delivery (cs : list Change) : Payload :=
  {| payload_object := Some (str "instagram");
     payload_entry := Some [ {| entry_changes := Some cs |} ] |}.

(** All changes of a payload, in processing order. *)
Definition changes_of (body : Payload) : list Change :=
  concat (map (fun entry => default [] (entry_changes entry))
              (default [] (payload_entry body))).

(** The world after the handler has run to its end, nothing else having
    been served meanwhile. *)
Definition deliver (env : Env) (body : Payload) (w : World) : World :=
  snd (post_webhook env body w).

Definition deliver_all (env : Env) (bodies : list Payload) (w : World) : World :=
  fold_left (fun w' b => deliver env b w') bodies w.

(** The call that [sendPrivateReply] issues for a comment in a world. *)
Definition reply_call (env : Env) (comment_id : jsstr) (w : World) : OutCall :=
  {| call_comment_id := comment_id;
     call_message := reply_message (DB w);
     call_access_token := PAGE_ACCESS_TOKEN env |}.

(** The exception an outbound call ends in, if any. *)
Definition outbound_failure (r : FetchResult) : option JsError :=
  match r with
  | FetchThrows e => Some e
  | Replied false j => Some {| err_name := str "Error"; err_message := j |}
  | Replied true _ => None
  end.

(** The password check passes: a non-empty password is configured and the
    supplied one equals it. *)
Definition authorized (env : Env) (req : AdminRequest) : Prop :=
  truthy (ADMIN_PASSWORD env) = true /\ supplied_pass req = ADMIN_PASSWORD env.

Definition unauthorized : Response :=
  {| status := 401; body := Text (str "Unauthorized. Add ?pass=YOUR_PASSWORD") |}.

Definition skip_entry (now : Z) (key : jsstr) : LogEntry :=
  {| time := now; type := skip; msg := str "Already messaged for this post";
     extra := [(str "key", key)] |}.

Definition sent_entry (now : Z) (key comment_id : jsstr) : LogEntry :=
  {| time := now; type := sent; msg := str "DM sent via private reply";
     extra := [(str "key", key); (str "comment_id", comment_id)] |}.

Definition error_entry (now : Z) (reason : jsstr) : LogEntry :=
  {| time := now; type := error; msg := str "Webhook processing failed";
     extra := [(str "error", reason)] |}.

Definition config_entry (now : Z) (m : jsstr) : LogEntry :=
  {| time := now; type := config; msg := m; extra := [] |}.

(** [l'] is [l] with entries satisfying [P] put in front and possibly a
    tail cut off. *)
Definition log_extends (P : LogEntry -> Prop) (l l' : list LogEntry) : Prop :=
  exists new k, l' = new ++ take k l /\ Forall P new.

(** Entries that the loop itself appends. *)
Definition quiet (e : LogEntry) : Prop := type e = sent \/ type e = skip.

(** The effect of one iteration that is relevant to the claims. *)
Record step_ok (w w' : World) : Prop := {
  step_dm_text : dm_text (DB w') = dm_text (DB w);
  step_marks : forall k, already_sent (DB w) k = true -> already_sent (DB w') k = true;
  step_logs : log_extends quiet (logs (DB w)) (logs (DB w'));
  step_outbox : exists calls, outbox w' = outbox w ++ calls
}.

(** The world after [n] skips for [key]: [n] clock readings, [n] entries,
    nothing written and nothing sent. *)
Definition skipped (env : Env) (key : jsstr) (n : nat) (w : World) : World :=
  {| DB := addLogs (map (fun i => skip_entry (clock env i) key)
                        (seq (clock_reads w) n)) (DB w);
     file := file w;
     clock_reads := clock_reads w + n;
     outbox := outbox w |}.

(** ** The route table *)

(** [app.get("/")]: the status text. *)
Definition get_root : Response :=
  send 200 (Some ([9989%N] ++ str " IG Comment Auto-DM is running." ++ [10%N]
                  ++ str "- Webhook: /webhook" ++ [10%N]
                  ++ str "- Dashboard: /admin?pass=YOUR_PASSWORD")).

(** A request to one of the six registered routes. *)
Inductive Request :=
| GET_webhook (q : VerifyQuery)
| POST_webhook (body : Payload)
| GET_root
| GET_admin (req : AdminRequest)
| POST_admin_save (req : AdminRequest)
| POST_admin_reset (req : AdminRequest).

Definition serve (env : Env) (r : Request) (w : World) : Response * World :=
  match r with
  | GET_webhook q => (get_webhook env q, w)
  | POST_webhook body => post_webhook env body w
  | GET_root => (get_root, w)
  | GET_admin req => get_admin env req w
  | POST_admin_save req => post_admin_save env req w
  | POST_admin_reset req => post_admin_reset env req w
  end.

(** The world after a run of requests, each served to completion. *)
Definition serve_all (env : Env) (rs : list Request) (w : World) : World :=
  fold_left (fun w' r => snd (serve env r w')) rs w.

(** The process is stopped and started again: [DB] is reloaded from the
    file; the clock and the platform go on. *)
Definition restart (w : World) : World :=
  {| DB := loadData (file w); file := file w;
     clock_reads := clock_reads w; outbox := outbox w |}.

(** ** More vocabulary *)

(** The three identifiers of a change, as the loop reads them. *)
Definition change_comment_id (c : Change) : option jsstr :=
  value_id (default empty_value (change_value c)).

Definition change_media_id (c : Change) : option jsstr :=
  value_media (default empty_value (change_value c)) ≫= ref_id.

Definition change_from_id (c : Change) : option jsstr :=
  value_from (default empty_value (change_value c)) ≫= ref_id.

(** The change passes the [if (!comment_id || !media_id || !from_id) continue]
    guard. *)
Definition actionable (c : Change) : bool :=
  truthy (change_comment_id c) && truthy (change_media_id c) && truthy (change_from_id c).

Definition change_key (c : Change) : jsstr :=
  dedupe_key (change_media_id c) (change_from_id c).

(** The world with one more outbound call on record. *)
Definition push_call (c : OutCall) (w : World) : World :=
  {| DB := DB w; file := file w; clock_reads := clock_reads w;
     outbox := outbox w ++ [c] |}.

(** What a restart would load agrees with [DB] on the dedupe set and on the
    reply text. *)
Definition durable (w : World) : Prop :=
  sent_keys (loadData (file w)) = sent_keys (DB w)
  /\ dm_text (loadData (file w)) = dm_text (DB w).

(** Two worlds that differ at most in the log and in the file. *)
Definition same_but_logs (w1 w2 : World) : Prop :=
  sent_keys (DB w1) = sent_keys (DB w2)
  /\ dm_text (DB w1) = dm_text (DB w2)
  /\ clock_reads w1 = clock_reads w2
  /\ outbox w1 = outbox w2.

(** A call that a delivery of the changes [cs], begun with store [d], may
    issue. *)
Definition call_from (env : Env) (d : Store) (cs : list Change) (call : OutCall) : Prop :=
  call_message call = reply_message d
  /\ call_access_token call = PAGE_ACCESS_TOKEN env
  /\ exists c, c ∈ cs /\ actionable c = true
               /\ call_comment_id call = subst_str (change_comment_id c).

(** 1 for a computation that ended in an exception, 0 otherwise. *)
Definition threw {A} (r : Res A) : nat :=
  match r with Ret _ => 0%nat | Throw _ => 1%nat end.

(** Entries further down the list are not younger. *)
Definition newest_first (l : list LogEntry) : Prop :=
  forall (i j : nat) (a b : LogEntry),
    (i <= j)%nat -> l !! i = Some a -> l !! j = Some b -> time b <= time a.

(** The log is in order and holds no entry from the future. *)
Definition chronological (env : Env) (w : World) : Prop :=
  newest_first (logs (DB w))
  /\ Forall (fun e => time e <= clock env (clock_reads w)) (logs (DB w)).

(** The clock never runs backwards. *)
Definition monotone_clock (env : Env) : Prop :=
  forall m n : nat, (m <= n)%nat -> clock env m <= clock env n.

(** No stored send time is zero, so a present key is a marked key. *)
Definition stamps_nonzero (d : Store) : Prop :=
  forall (k : jsstr) (t : Z), sent_keys d !! k = Some t -> t <> 0.

(** ** The webhook handler in turns

    [app.post("/webhook")] is an [async] function: at
    [await sendPrivateReply(...)] it hands control back to the server, which
    serves other requests until the platform has answered.  Here the handler
    is written once more with that point of suspension kept, over payloads
    of any shape the loop can meet; [post_webhook] above is this handler run
    with no other request served while it waits (see
    [post_webhook_uninterrupted]). *)

(** A value iterated by [for (... of v || [])]: falsy (absent, [null],
    [false], [0], [""]), an array, or a truthy value that cannot be iterated
    (a number, [true], an object).  A non-empty string iterates as items
    that carry nothing. *)
Inductive Seq (A : Type) :=
| Falsy
| NotIterable
| Items (l : list A).
Arguments Falsy {A}.
Arguments NotIterable {A}.
Arguments Items {A} l.

(** An item of an array is [null] ([None]) or not; an item that is a
    primitive or an array reads as an object without the property. *)
Record RawEntry := mkRawEntry { raw_changes : Seq (option Change) }.

Record RawPayload := mkRawPayload {
  raw_object : option jsstr;
  raw_entry : Seq (option RawEntry)
}.

(** A payload whose [entry] and [changes], where present, are arrays
    without [null]. *)
Definition items_of {A B} (f : A -> B) (o : option (list A)) : Seq B :=
  match o with
  | None => Falsy
  | Some l => Items (map f l)
  end.

Definition raw_of (body : Payload) : RawPayload :=
  {| raw_object := payload_object body;
     raw_entry :=
       items_of (fun entry => Some {| raw_changes := items_of Some (entry_changes entry) |})
                (payload_entry body) |}.

Definition type_error (env : Env) (site : TypeErrorSite) : JsError :=
  {| err_name := str "TypeError"; err_message := engine_says env site |}.

Definition throw {A} (e : JsError) : M A := fun w => (Throw e, w).

(** Where a handler stands when it gives up control: it has returned or
    thrown ([Settled]), or it waits at an [await], having left the world
    [w], and goes on with [k] from the world it finds when the answer is
    in. *)
Inductive Outcome (A : Type) :=
| Settled (r : Res A) (w : World)
| Pending (w : World) (k : World -> Outcome A).
Arguments Settled {A} r w.
Arguments Pending {A} w k.

Definition AM (A : Type) : Type := World -> Outcome A.

Fixpoint and_then {A B} (o : Outcome A) (f : A -> AM B) : Outcome B :=
  match o with
  | Settled (Ret a) w => f a w
  | Settled (Throw e) w => Settled (Throw e) w
  | Pending w k => Pending w (fun w' => and_then (k w') f)
  end.

Definition abind {A B} (m : AM A) (f : A -> AM B) : AM B :=
  fun w => and_then (m w) f.

Notation "m ;> k" := (abind m (fun _ => k))
  (at level 100, k at level 200, right associativity).

(** Statements that run without giving up control. *)
Definition sync {A} (m : M A) : AM A :=
  fun w => let '(r, w') := m w in Settled r w'.

(** [sendPrivateReply]: [fetch] is called at once; the rest runs when the
    answer is in. *)
Definition sendPrivateReply_a (env : Env) (comment_id message : jsstr) : AM jsstr :=
  fun w =>
    let call := {| call_comment_id := comment_id;
                   call_message := message;
                   call_access_token := PAGE_ACCESS_TOKEN env |} in
    let answer := graph env (length (outbox w)) call in
    Pending (push_call call w)
      (fun w' =>
         match answer with
         | FetchThrows e => Settled (Throw e) w'
         | Replied ok j =>
             if negb ok then Settled (Throw {| err_name := str "Error"; err_message := j |}) w'
             else Settled (Ret j) w'
         end).

(** The body of the inner loop for one [change]. *)
Definition handle_change_a (env : Env) (change : Change) : AM unit :=
  let value := default empty_value (change_value change) in
  let comment_id := value_id value in
  let media_id := value_media value ≫= ref_id in
  let from_id := value_from value ≫= ref_id in
  if negb (truthy comment_id) || negb (truthy media_id) || negb (truthy from_id)
  then sync (ret tt)
  else
    let key := dedupe_key media_id from_id in
    fun w =>
      if already_sent (DB w) key
      then sync (exec (addLogDB env skip (str "Already messaged for this post")
                         [(str "key", key)])) w
      else
        (let message := reply_message (DB w) in
         sendPrivateReply_a env (subst_str comment_id) message ;>
         sync (exec (mark_sent env key)) ;>
         sync (exec (addLogDB env sent (str "DM sent via private reply")
                       [(str "key", key); (str "comment_id", subst_str comment_id)])) ;>
         sync (exec saveData)) w.

Fixpoint for_of_a {A} (xs : list A) (f : A -> AM unit) : AM unit :=
  match xs with
  | [] => sync (ret tt)
  | x :: xs' => f x ;> for_of_a xs' f
  end.

(** [for (const x of v || []) body]. *)
Definition iterate_a {A} (env : Env) (site : TypeErrorSite) (v : Seq A)
    (f : A -> AM unit) : AM unit :=
  match v with
  | Falsy => sync (ret tt)
  | NotIterable => sync (throw (type_error env site))
  | Items l => for_of_a l f
  end.

(** The [try] block. *)
Definition process_a (env : Env) (body : RawPayload) : AM unit :=
  if negb (strict_eq (raw_object body) (Some (str "instagram"))) then sync (ret tt)
  else
    iterate_a env entry_not_iterable (raw_entry body) (fun entry =>
      match entry with
      | None => sync (throw (type_error env entry_is_null))
      | Some entry =>
          iterate_a env changes_not_iterable (raw_changes entry) (fun change =>
            match change with
            | None => sync (throw (type_error env change_is_null))
            | Some change => handle_change_a env change
            end)
      end).

(** [try { ... } catch (err) { h err }] around a block that may wait. *)
Fixpoint catching (o : Outcome unit) (h : JsError -> World -> World) : Outcome unit :=
  match o with
  | Settled (Ret _) w => Settled (Ret tt) w
  | Settled (Throw err) w => Settled (Ret tt) (h err w)
  | Pending w k => Pending w (fun w' => catching (k w') h)
  end.

Definition post_webhook_a (env : Env) (body : RawPayload) (w : World)
    : Response * Outcome unit :=
  (sendStatus 200, catching (process_a env body w) (on_failure env)).

(** A handler that is resumed each time before anything else runs. *)
Fixpoint uninterrupted {A} (o : Outcome A) : Res A * World :=
  match o with
  | Settled r w => (r, w)
  | Pending w k => uninterrupted (k w)
  end.

(** The world after an uninterrupted run of the handler on any payload. *)
Definition deliver_raw (env : Env) (body : RawPayload) (w : World) : World :=
  snd (uninterrupted (snd (post_webhook_a env body w))).

(** The server: the shared world and the handlers that wait for an answer
    of the platform. *)
Record System := mkSystem {
  shared : World;
  suspended : list (World -> Outcome unit)
}.

(** What the server reacts to: a request, a webhook delivery of any shape,
    or the answer to the call of the [i]-th waiting handler. *)
Inductive Event :=
| Arrives (r : Request)
| Delivers (body : RawPayload)
| Answers (i : nat).

Definition settle (o : Outcome unit) (others : list (World -> Outcome unit)) : System :=
  match o with
  | Settled _ w => {| shared := w; suspended := others |}
  | Pending w k => {| shared := w; suspended := others ++ [k] |}
  end.

(** One turn of the event loop. *)
Definition step (env : Env) (ev : Event) (s : System) : System :=
  match ev with
  | Delivers body => settle (snd (post_webhook_a env body (shared s))) (suspended s)
  | Arrives (POST_webhook body) =>
      settle (snd (post_webhook_a env (raw_of body) (shared s))) (suspended s)
  | Arrives r => {| shared := snd (serve env r (shared s)); suspended := suspended s |}
  | Answers i =>
      match suspended s !! i with
      | None => s
      | Some k => settle (k (shared s)) (delete i (suspended s))
      end
  end.

Definition run (env : Env) (evs : list Event) (s : System) : System :=
  fold_left (fun s' ev => step env ev s') evs s.

Definition power_on (f : option Store) : System :=
  {| shared := boot f; suspended := [] |}.






(** The changes the loop reaches, in order, and the [TypeError] that ends
    it, if the payload has a place that raises one. *)
Fixpoint visit_changes (cs : list (option Change)) : list Change * option TypeErrorSite :=
  match cs with
  | [] => ([], None)
  | None :: _ => ([], Some change_is_null)
  | Some c :: rest => let '(l, stop) := visit_changes rest in (c :: l, stop)
  end.

Fixpoint visit_entries (es : list (option RawEntry)) : list Change * option TypeErrorSite :=
  match es with
  | [] => ([], None)
  | None :: _ => ([], Some entry_is_null)
  | Some entry :: rest =>
      match raw_changes entry with
      | Falsy => visit_entries rest
      | NotIterable => ([], Some changes_not_iterable)
      | Items cs =>
          match visit_changes cs with
          | (l, Some site) => (l, Some site)
          | (l, None) => let '(l', stop) := visit_entries rest in (l ++ l', stop)
          end
      end
  end.

Definition visit (body : RawPayload) : list Change * option TypeErrorSite :=
  match raw_entry body with
  | Falsy => ([], None)
  | NotIterable => ([], Some entry_not_iterable)
  | Items es => visit_entries es
  end.

(** How the loop ends: normally, or with the [TypeError] of a place. *)
Definition ending (env : Env) (stop : option TypeErrorSite) : M unit :=
  match stop with
  | None => ret tt
  | Some site => throw (type_error env site)
  end.

(** ** Sample data *)

Definition sample_entry (n : nat) : LogEntry :=
  {| time := Z.of_nat n; type := sent; msg := str "DM sent via private reply";
     extra := [] |}.

Definition sample_env : Env :=
  {| VERIFY_TOKEN := Some (str "verify-me");
     PAGE_ACCESS_TOKEN := Some (str "page-token");
     ADMIN_PASSWORD := Some (str "hunter2");
     clock := fun n => 1700000000000 + Z.of_nat n;
     graph := fun _ _ => Replied true (str "{}");
     engine_says := fun _ => str "Cannot read properties of null" |}.

Definition sample_handshake : VerifyQuery :=
  {| hub_mode := Some (str "subscribe");
     hub_verify_token := Some (str "verify-me");
     hub_challenge := Some (str "1158201444") |}.

Definition open_env : Env :=
  {| VERIFY_TOKEN := None;
     PAGE_ACCESS_TOKEN := Some (str "page-token");
     ADMIN_PASSWORD := None;
     clock := fun n => 1700000000000 + Z.of_nat n;
     graph := fun _ _ => Replied true (str "{}");
     engine_says := fun _ => str "Cannot read properties of null" |}.

Definition sample_store : Store :=
  {| dm_text := str "Thanks!";
     sent_keys := {[ str "m1:u1" := 1700000000000 ]};
     logs := [] |}.

Definition sample_world : World :=
  {| DB := sample_store; file := Some sample_store; clock_reads := 0; outbox := [] |}.

Definition flaky_env : Env :=
  {| VERIFY_TOKEN := Some (str "verify-me");
     PAGE_ACCESS_TOKEN := Some (str "page-token");
     ADMIN_PASSWORD := Some (str "hunter2");
     clock := fun n => 1700000000000 + Z.of_nat n;
     graph := fun n _ => if (n =? 1)%nat then Replied false (str "{error:190}")
                         else Replied true (str "{}");
     engine_says := fun _ => str "Cannot read properties of null" |}.

Definition sample_batch : Payload :=
  {| payload_object := Some (str "instagram");
     payload_entry := Some
       [ {| entry_changes := Some [comment_event (str "c1") (str "m1") (str "u7")] |};
         {| entry_changes := Some [comment_event (str "c2") (str "m1") (str "u8");
                                   comment_event (str "c3") (str "m1") (str "u9")] |} ] |}.

(** The platform takes the first reply and answers 200 with a body that is
    not JSON, so that [r.json()] throws. *)
Definition garbled_env : Env :=
  {| VERIFY_TOKEN := Some (str "verify-me");
     PAGE_ACCESS_TOKEN := Some (str "page-token");
     ADMIN_PASSWORD := Some (str "hunter2");
     clock := fun n => 1700000000000 + Z.of_nat n;
     graph := fun n _ =>
       if (n =? 0)%nat
       then FetchThrows {| err_name := str "FetchError";
                           err_message := str "invalid json response body" |}
       else Replied true (str "{}");
     engine_says := fun _ => str "Cannot read properties of null" |}.

Definition sample_requests : list Request :=
  [ POST_webhook sample_batch;
    GET_root;
    POST_admin_save (mkAdmin (Some (str "hunter2")) None (Some (str "  New text ")));
    POST_webhook sample_batch;
    GET_admin (mkAdmin None None None);
    POST_admin_reset (mkAdmin None (Some (str "hunter2")) None);
    POST_webhook (delivery [comment_event (str "c1") (str "m1") (str "u7")]) ].

(** ** The activity log *)

Section Log.

Lemma take_app_take {A} (n : nat) (l1 l2 : list A) :
  take n (l1 ++ take n l2) = take n (l1 ++ l2).
Proof.
  rewrite !take_app, take_take. f_equal. f_equal. lia.
Qed.

Lemma addLog_logs now data ty m ex :
  logs (addLog now data ty m ex)
  = {| time := now; type := ty; msg := m; extra := ex |} :: take 199 (logs data).
Proof. reflexivity. Qed.

Lemma log_entry_eta (e : LogEntry) :
  {| time := time e; type := type e; msg := msg e; extra := extra e |} = e.
Proof. by destruct e. Qed.

Lemma addLogs_cons e es data :
  addLogs (e :: es) data = addLogs es (addLog (time e) data (type e) (msg e) (extra e)).
Proof. reflexivity. Qed.

(** A non-empty run of appends leaves the appended entries, newest
    first, over the old ones, cut at 200. *)
Lemma addLogs_logs es : forall e data,
  logs (addLogs (e :: es) data) = take 200 (rev (e :: es) ++ logs data).
Proof.
  induction es as [|e2 es IH]; intros e data.
  - cbn. by rewrite log_entry_eta.
  - rewrite addLogs_cons, IH. cbn [logs addLog slice0].
    rewrite log_entry_eta, take_app_take.
    change (rev (e :: e2 :: es)) with (rev (e2 :: es) ++ [e]).
    by rewrite <- app_assoc.
Qed.

Lemma addLogs_frame es : forall data,
  dm_text (addLogs es data) = dm_text data
  /\ sent_keys (addLogs es data) = sent_keys data.
Proof.
  induction es as [|e es IH]; intros data; [done|].
  rewrite addLogs_cons. by destruct (IH (addLog (time e) data (type e) (msg e) (extra e))).
Qed.

End Log.

(** C3. Every append, of any type and on any store, puts the new entry at
    index 0, keeps the earlier entries in their order one place further
    down, and leaves [min (previous length + 1) 200] entries; the other
    fields are untouched.  After more than 200 appends the log is exactly
    the 200 most recent entries, newest first. *)
Theorem C3_addLog_newest_first_bounded (now : Z) (data : Store) (ty : LogType)
    (m : jsstr) (ex : list (jsstr * jsstr)) :
  let entry := {| time := now; type := ty; msg := m; extra := ex |} in
  let data' := addLog now data ty m ex in
  logs data' !! 0%nat = Some entry
  /\ (forall i : nat, (i < 199)%nat -> logs data' !! S i = logs data !! i)
  /\ (forall i : nat, (199 <= i)%nat -> logs data' !! S i = None)
  /\ length (logs data') = Nat.min (length (logs data) + 1) 200
  /\ dm_text data' = dm_text data
  /\ sent_keys data' = sent_keys data
  /\ (forall es : list LogEntry, (200 < length es)%nat ->
        logs (addLogs es data) = take 200 (rev es)
        /\ length (logs (addLogs es data)) = 200%nat).
Proof.
  intros entry data'. subst data'. rewrite addLog_logs. fold entry.
  repeat split.
  - intros i Hi. exact (lookup_take_lt (logs data) 199 i Hi).
  - intros i Hi. exact (lookup_take_ge (logs data) 199 i Hi).
  - cbn. rewrite length_take. lia.
  - destruct es as [|e es]; [simpl in H; lia|].
    rewrite addLogs_logs, take_app_le; [done|]. rewrite length_rev. lia.
  - destruct es as [|e es]; [simpl in H; lia|].
    rewrite addLogs_logs, length_take, length_app, length_rev. lia.
Qed.

Lemma C3_addLog_newest_first_bounded_witness :
  logs (addLogs (map sample_entry (seq 0 201)) (loadData None))
  = take 200 (rev (map sample_entry (seq 0 201))).
Proof.
  refine (proj1 (proj2 (proj2 (proj2 (proj2 (proj2 (proj2
            (C3_addLog_newest_first_bounded 0 (loadData None) config [] []))))))
            (map sample_entry (seq 0 201)) _)).
  vm_compute. lia.
Defined.

(** ** The verification handshake *)

Lemma strict_eq_true a b : strict_eq a b = true <-> a = b.
Proof. unfold strict_eq. apply bool_decide_eq_true. Qed.

Lemma strict_eq_false a b : strict_eq a b = false <-> a <> b.
Proof. unfold strict_eq. apply bool_decide_eq_false. Qed.

(** C2 (amended). A GET /webhook whose mode is "subscribe" and whose
    verify_token equals the configured one is answered 200 with the
    challenge as body (an empty body when no challenge was supplied); every
    other request is answered 403 through [sendStatus], whose body is the
    reason phrase "Forbidden". *)
Theorem C2_verify_echo_or_forbidden (env : Env) (q : VerifyQuery) :
  (hub_mode q = Some (str "subscribe") /\ hub_verify_token q = VERIFY_TOKEN env ->
     get_webhook env q = {| status := 200; body := Text (default [] (hub_challenge q)) |})
  /\ (~ (hub_mode q = Some (str "subscribe") /\ hub_verify_token q = VERIFY_TOKEN env) ->
     get_webhook env q = {| status := 403; body := Text (str "Forbidden") |}).
Proof.
  unfold get_webhook. split.
  - intros [Hm Ht].
    apply strict_eq_true in Hm. apply strict_eq_true in Ht.
    by rewrite Hm, Ht.
  - intros Hno.
    destruct (strict_eq (hub_mode q) (Some (str "subscribe"))) eqn:Hm;
      destruct (strict_eq (hub_verify_token q) (VERIFY_TOKEN env)) eqn:Ht;
      try reflexivity.
    apply strict_eq_true in Hm. apply strict_eq_true in Ht. tauto.
Qed.

Lemma C2_verify_echo_or_forbidden_witness :
  get_webhook sample_env sample_handshake
  = {| status := 200; body := Text (str "1158201444") |}.
Proof.
  apply (proj1 (C2_verify_echo_or_forbidden sample_env sample_handshake)).
  split; reflexivity.
Defined.

(** C2 as stated fails: a rejected handshake is not answered with an empty
    body. *)
Lemma C2_forbidden_body_not_empty :
  hub_mode (mkVerify (Some (str "unsubscribe")) (Some (str "verify-me")) None)
    <> Some (str "subscribe")
  /\ get_webhook sample_env
       (mkVerify (Some (str "unsubscribe")) (Some (str "verify-me")) None)
     <> {| status := 403; body := Text [] |}.
Proof. split; intros H; vm_compute in H; discriminate H. Qed.

(** ** Admin authentication *)

Lemma requireAuth_authorized env req :
  authorized env req -> requireAuth env req = None.
Proof.
  intros [Hset Heq]. unfold requireAuth.
  apply strict_eq_true in Heq. by rewrite Hset, Heq.
Qed.

Lemma requireAuth_rejects env req :
  ADMIN_PASSWORD env = None \/ supplied_pass req <> ADMIN_PASSWORD env ->
  requireAuth env req = Some unauthorized.
Proof.
  intros [Hunset | Hne]; unfold requireAuth.
  - by rewrite Hunset.
  - apply strict_eq_false in Hne. rewrite Hne.
    by rewrite orb_true_r.
Qed.

(** C9. With VERIFY_TOKEN unset, a subscribe request that omits the
    verify_token passes the equality check and is answered 200 with the
    challenge (an empty body when that is absent too); with ADMIN_PASSWORD
    unset, by contrast, every admin request is rejected. *)
Theorem C9_unset_verify_token_accepts (env : Env) (q : VerifyQuery) :
  VERIFY_TOKEN env = None ->
  hub_mode q = Some (str "subscribe") ->
  hub_verify_token q = None ->
  get_webhook env q = {| status := 200; body := Text (default [] (hub_challenge q)) |}
  /\ status (get_webhook env q) <> 403%nat
  /\ (ADMIN_PASSWORD env = None ->
      forall (req : AdminRequest) (w : World),
        get_admin env req w = (unauthorized, w)
        /\ post_admin_save env req w = (unauthorized, w)
        /\ post_admin_reset env req w = (unauthorized, w)).
Proof.
  intros Hv Hm Ht.
  assert (Hget : get_webhook env q
                 = {| status := 200; body := Text (default [] (hub_challenge q)) |}).
  { unfold get_webhook. rewrite Hm, Ht, Hv. reflexivity. }
  split; [exact Hget|]. split; [by rewrite Hget|].
  intros Ha req w.
  unfold get_admin, post_admin_save, post_admin_reset.
  by rewrite (requireAuth_rejects env req (or_introl Ha)).
Qed.

Lemma C9_unset_verify_token_accepts_witness :
  get_webhook open_env (mkVerify (Some (str "subscribe")) None (Some (str "42")))
  = {| status := 200; body := Text (str "42") |}
  /\ post_admin_reset open_env (mkAdmin None None None) (boot None)
     = (unauthorized, boot None).
Proof.
  pose proof (C9_unset_verify_token_accepts open_env
                (mkVerify (Some (str "subscribe")) None (Some (str "42")))
                eq_refl eq_refl eq_refl) as [Hget [_ Hadmin]].
  split; [exact Hget|].
  exact (proj2 (proj2 (Hadmin eq_refl (mkAdmin None None None) (boot None)))).
Defined.

(** C6. An admin request is answered 401 and leaves the whole world as it
    was (reply text, dedupe set, log, file) whenever the admin password is
    unset or the supplied password, [query.pass || x-admin-pass], differs
    from it. *)
Theorem C6_unauthorized_no_effect (env : Env) (req : AdminRequest) (w : World) :
  ADMIN_PASSWORD env = None \/ supplied_pass req <> ADMIN_PASSWORD env ->
  status unauthorized = 401%nat
  /\ get_admin env req w = (unauthorized, w)
  /\ post_admin_save env req w = (unauthorized, w)
  /\ post_admin_reset env req w = (unauthorized, w).
Proof.
  intros Hbad. unfold get_admin, post_admin_save, post_admin_reset.
  by rewrite (requireAuth_rejects env req Hbad).
Qed.

Lemma C6_unauthorized_no_effect_witness :
  post_admin_save sample_env
    (mkAdmin (Some (str "guess")) (Some (str "hunter2")) (Some (str "spam")))
    (boot None)
  = (unauthorized, boot None).
Proof.
  refine (proj1 (proj2 (proj2 (C6_unauthorized_no_effect sample_env
            (mkAdmin (Some (str "guess")) (Some (str "hunter2")) (Some (str "spam")))
            (boot None) _)))).
  right. intros H. vm_compute in H. discriminate H.
Defined.

(** ** Trimming *)

Section Trim.

Lemma trim_start_split s :
  exists pre, s = pre ++ trim_start s /\ Forall (fun c => is_ws c = true) pre.
Proof.
  induction s as [|c s [pre [Hs Hpre]]]; [by exists []|].
  simpl. destruct (is_ws c) eqn:Hc.
  - exists (c :: pre). split; [simpl; by rewrite <- Hs | by constructor].
  - by exists [].
Qed.

Lemma trim_start_head s c : head (trim_start s) = Some c -> is_ws c = false.
Proof.
  induction s as [|d s IH]; [done|].
  simpl. destruct (is_ws d) eqn:Hd; [exact IH|].
  simpl. by intros [= <-].
Qed.

Lemma last_rev_head (u : jsstr) : last (rev u) = head u.
Proof. destruct u as [|c u]; [done|]. simpl. apply last_snoc. Qed.

(** [trim s] is [s] without a run of white space at either end, and
    neither starts nor ends with white space. *)
Lemma trim_spec s :
  (exists pre post,
      s = pre ++ trim s ++ post
      /\ Forall (fun c => is_ws c = true) pre
      /\ Forall (fun c => is_ws c = true) post)
  /\ (forall c, head (trim s) = Some c -> is_ws c = false)
  /\ (forall c, last (trim s) = Some c -> is_ws c = false).
Proof.
  unfold trim.
  destruct (trim_start_split s) as [pre [Hs Hpre]].
  destruct (trim_start_split (rev (trim_start s))) as [q [Hr Hq]].
  assert (Ht : trim_start s = rev (trim_start (rev (trim_start s))) ++ rev q).
  { rewrite <- rev_app_distr, <- Hr. by rewrite rev_involutive. }
  split; [|split].
  - exists pre, (rev q). repeat split; [|done|by apply Forall_rev].
    by rewrite <- Ht.
  - intros c Hc. apply (trim_start_head s).
    rewrite Ht. destruct (rev (trim_start (rev (trim_start s)))); [done|].
    exact Hc.
  - intros c. rewrite last_rev_head. apply trim_start_head.
Qed.

End Trim.

(** ** The admin operations *)

(** C7. An authenticated POST /admin/save trims the submitted text; a
    non-empty result replaces the reply text and an empty one leaves it as
    it was.  Either way one "config" entry heads the log, the file holds the
    new store, and the dedupe set and the outbound calls are untouched. *)
Theorem C7_save_trims_and_frames (env : Env) (req : AdminRequest) (w : World) :
  authorized env req ->
  let submitted := or_default (body_dm_text req) [] in
  let w' := snd (post_admin_save env req w) in
  ((exists pre post,
       submitted = pre ++ trim submitted ++ post
       /\ Forall (fun c => is_ws c = true) pre
       /\ Forall (fun c => is_ws c = true) post)
   /\ (forall c, head (trim submitted) = Some c -> is_ws c = false)
   /\ (forall c, last (trim submitted) = Some c -> is_ws c = false))
  /\ (trim submitted <> [] -> dm_text (DB w') = trim submitted)
  /\ (trim submitted = [] -> dm_text (DB w') = dm_text (DB w))
  /\ logs (DB w')
     = config_entry (clock env (clock_reads w)) (str "DM text updated")
       :: take 199 (logs (DB w))
  /\ file w' = Some (DB w')
  /\ sent_keys (DB w') = sent_keys (DB w)
  /\ outbox w' = outbox w.
Proof.
  intros Hauth submitted w'. subst w'.
  unfold post_admin_save. rewrite (requireAuth_authorized env req Hauth).
  fold submitted. cbn.
  split; [apply trim_spec|].
  destruct (trim submitted) as [|c t] eqn:Ht; cbn; repeat split; congruence.
Qed.

Lemma C7_save_trims_and_frames_witness :
  dm_text (DB (snd (post_admin_save sample_env
                      (mkAdmin (Some (str "hunter2")) None (Some (str "  Hello  ")))
                      sample_world)))
  = str "Hello"
  /\ dm_text (DB (snd (post_admin_save sample_env
                         (mkAdmin (Some (str "hunter2")) None (Some (str "   ")))
                         sample_world)))
     = str "Thanks!".
Proof.
  split.
  - refine (proj1 (proj2 (C7_save_trims_and_frames sample_env
              (mkAdmin (Some (str "hunter2")) None (Some (str "  Hello  ")))
              sample_world _)) _).
    + split; reflexivity.
    + vm_compute. discriminate.
  - refine (proj1 (proj2 (proj2 (C7_save_trims_and_frames sample_env
              (mkAdmin (Some (str "hunter2")) None (Some (str "   ")))
              sample_world _))) _).
    + split; reflexivity.
    + reflexivity.
Defined.

(** ** The webhook loop *)

Section Webhook.

Variable env : Env.

Lemma bind_unit (m : M unit) w : (m ;;; ret tt) w = m w.
Proof.
  unfold bind, ret. destruct (m w) as [[[]|e] w']; reflexivity.
Qed.

Lemma for_of_app {A} (f : A -> M unit) (xs ys : list A) w :
  for_of (xs ++ ys) f w = (for_of xs f ;;; for_of ys f) w.
Proof.
  revert w. induction xs as [|x xs IH]; intros w; [reflexivity|].
  cbn [for_of app]. unfold bind.
  destruct (f x w) as [[[]|e] w1]; [|reflexivity].
  rewrite IH. reflexivity.
Qed.

(** The nested loops visit the changes of all entries in order. *)
Lemma for_of_nested (f : Change -> M unit) (es : list Entry) w :
  for_of es (fun entry => for_of (default [] (entry_changes entry)) f) w
  = for_of (concat (map (fun entry => default [] (entry_changes entry)) es)) f w.
Proof.
  revert w. induction es as [|e es IH]; intros w; [reflexivity|].
  cbn [for_of map concat]. rewrite for_of_app. unfold bind.
  destruct (for_of (default [] (entry_changes e)) f w) as [[[]|err] w1];
    [apply IH | reflexivity].
Qed.

Lemma process_payload_changes (body : Payload) w :
  payload_object body = Some (str "instagram") ->
  process_payload env body w = for_of (changes_of body) (handle_change env) w.
Proof.
  intros Hobj. unfold process_payload, changes_of.
  apply strict_eq_true in Hobj. rewrite Hobj. cbn [negb].
  apply for_of_nested.
Qed.

Lemma changes_of_delivery cs : changes_of (delivery cs) = cs.
Proof. unfold changes_of, delivery. cbn. apply app_nil_r. Qed.

(** An exception in the loop abandons what follows it. *)
Lemma for_of_throws {A} (f : A -> M unit) (pre : list A) (x : A) (rest : list A)
    w w1 w2 e :
  for_of pre f w = (Ret tt, w1) ->
  f x w1 = (Throw e, w2) ->
  for_of (pre ++ x :: rest) f w = (Throw e, w2).
Proof.
  intros Hpre Hx. rewrite for_of_app. unfold bind. rewrite Hpre.
  cbn [for_of]. unfold bind. by rewrite Hx.
Qed.

Lemma str_truthy_iff (s : jsstr) : str_truthy s = true <-> s <> [].
Proof. destruct s; simpl; split; congruence. Qed.

(** One well-formed comment event: a skip when the key is marked,
    otherwise the outbound call and, if that returns, the mark, the
    "sent" entry and the write. *)
Lemma handle_change_event (comment_id post_id commenter_id : jsstr) w :
  comment_id <> [] -> post_id <> [] -> commenter_id <> [] ->
  let key := dedupe_key (Some post_id) (Some commenter_id) in
  handle_change env (comment_event comment_id post_id commenter_id) w
  = if already_sent (DB w) key
    then (Ret tt, addLogDB env skip (str "Already messaged for this post")
                    [(str "key", key)] w)
    else
      let w1 := {| DB := DB w; file := file w; clock_reads := clock_reads w;
                   outbox := outbox w ++ [reply_call env comment_id w] |} in
      match outbound_failure
              (graph env (length (outbox w)) (reply_call env comment_id w)) with
      | Some e => (Throw e, w1)
      | None =>
          (Ret tt,
           saveData (addLogDB env sent (str "DM sent via private reply")
                       [(str "key", key); (str "comment_id", comment_id)]
                       (mark_sent env key w1)))
      end.
Proof.
  intros Hc Hp Hu key.
  apply str_truthy_iff in Hc, Hp, Hu.
  unfold handle_change, comment_event.
  cbn [change_value default from_option id value_id value_media value_from
       mbind option_bind ref_id truthy].
  rewrite Hc, Hp, Hu. cbn [negb orb]. fold key.
  destruct (already_sent (DB w) key); [reflexivity|].
  unfold bind, sendPrivateReply, reply_call, exec. cbn [subst_str].
  destruct (graph env (length (outbox w)) _) as [e|[] j]; reflexivity.
Qed.

End Webhook.

Section Deliveries.

Variable env : Env.

Lemma deliver_changes (body : Payload) w :
  payload_object body = Some (str "instagram") ->
  deliver env body w
  = try_catch (for_of (changes_of body) (handle_change env)) (on_failure env) w.
Proof.
  intros Hobj. unfold deliver, post_webhook, try_catch. cbn [snd].
  by rewrite process_payload_changes.
Qed.

Lemma deliver_single (c : Change) w :
  deliver env (delivery [c]) w = try_catch (handle_change env c) (on_failure env) w.
Proof.
  rewrite deliver_changes by reflexivity. rewrite changes_of_delivery.
  unfold try_catch. cbn [for_of]. by rewrite bind_unit.
Qed.

Variables post_id commenter_id : jsstr.
Hypothesis post_id_truthy : post_id <> [].
Hypothesis commenter_id_truthy : commenter_id <> [].

Local Abbreviation key := (dedupe_key (Some post_id) (Some commenter_id)).
Local Abbreviation event cid := (comment_event cid post_id commenter_id).
Local Abbreviation events cids :=
  (map (fun cid : jsstr => comment_event cid post_id commenter_id) cids).

Lemma deliver_event_skip comment_id w :
  comment_id <> [] ->
  already_sent (DB w) key = true ->
  deliver env (delivery [event comment_id]) w
  = addLogDB env skip (str "Already messaged for this post") [(str "key", key)] w.
Proof.
  intros Hc Hsent. rewrite deliver_single. unfold try_catch.
  rewrite handle_change_event by done. cbv zeta. by rewrite Hsent.
Qed.

Lemma deliver_event_send comment_id w :
  comment_id <> [] ->
  already_sent (DB w) key = false ->
  let w1 := {| DB := DB w; file := file w; clock_reads := clock_reads w;
               outbox := outbox w ++ [reply_call env comment_id w] |} in
  deliver env (delivery [event comment_id]) w
  = match outbound_failure
            (graph env (length (outbox w)) (reply_call env comment_id w)) with
    | Some e => on_failure env e w1
    | None =>
        saveData (addLogDB env sent (str "DM sent via private reply")
                    [(str "key", key); (str "comment_id", comment_id)]
                    (mark_sent env key w1))
    end.
Proof.
  intros Hc Hsent w1. rewrite deliver_single. unfold try_catch.
  rewrite handle_change_event by done. rewrite Hsent.
  cbv zeta. fold w1. by destruct (outbound_failure _).
Qed.

Lemma already_sent_insert (d : Store) (k : jsstr) (t : Z) :
  t <> 0 ->
  already_sent {| dm_text := dm_text d; sent_keys := <[k := t]> (sent_keys d);
                  logs := logs d |} k = true.
Proof.
  intros Ht. unfold already_sent. cbn [sent_keys].
  rewrite lookup_insert_eq. apply negb_true_iff. by apply Z.eqb_neq.
Qed.

Lemma skipped_0 k w : skipped env k 0 w = w.
Proof. destruct w. unfold skipped. cbn. f_equal. lia. Qed.

Lemma skipped_S k n w :
  skipped env k (S n) w
  = skipped env k n (addLogDB env skip (str "Already messaged for this post")
                       [(str "key", k)] w).
Proof. unfold skipped. cbn. f_equal. lia. Qed.

Lemma skipped_add k a b w :
  skipped env k b (skipped env k a w) = skipped env k (a + b) w.
Proof.
  revert w. induction a as [|a IH]; intros w.
  - by rewrite skipped_0.
  - cbn [Nat.add]. by rewrite !skipped_S, IH.
Qed.

Lemma skipped_frame k n w :
  sent_keys (DB (skipped env k n w)) = sent_keys (DB w)
  /\ dm_text (DB (skipped env k n w)) = dm_text (DB w)
  /\ outbox (skipped env k n w) = outbox w
  /\ file (skipped env k n w) = file w.
Proof.
  unfold skipped. cbn.
  destruct (addLogs_frame (map (fun i => skip_entry (clock env i) k)
                               (seq (clock_reads w) n)) (DB w)) as [-> ->].
  done.
Qed.

Lemma skipped_marked k n w j :
  already_sent (DB w) j = true -> already_sent (DB (skipped env k n w)) j = true.
Proof.
  unfold already_sent. by destruct (skipped_frame k n w) as (-> & _).
Qed.

(** Events of a marked pair run through the loop as skips. *)
Lemma for_of_skips cids : forall w,
  Forall (fun cid : jsstr => cid <> []) cids ->
  already_sent (DB w) key = true ->
  for_of (events cids) (handle_change env) w
  = (Ret tt, skipped env key (length cids) w).
Proof.
  induction cids as [|cid cids IH]; intros w Hcids Hsent.
  - cbn. by rewrite skipped_0.
  - apply Forall_cons in Hcids as [Hcid Hcids].
    cbn [map for_of length]. unfold bind.
    rewrite handle_change_event by done. cbv zeta. rewrite Hsent.
    rewrite skipped_S. by apply IH.
Qed.

Lemma deliver_batch_skips cids w :
  Forall (fun cid : jsstr => cid <> []) cids ->
  already_sent (DB w) key = true ->
  deliver env (delivery (events cids)) w = skipped env key (length cids) w.
Proof.
  intros Hcids Hsent. rewrite deliver_changes by done.
  rewrite changes_of_delivery. unfold try_catch. by rewrite for_of_skips.
Qed.

(** A run of deliveries for a pair whose key is marked: skips only. *)
Lemma deliver_all_skips batches : forall w,
  Forall (Forall (fun cid : jsstr => cid <> [])) batches ->
  already_sent (DB w) key = true ->
  deliver_all env (map (fun cids => delivery (events cids)) batches) w
  = skipped env key (length (concat batches)) w.
Proof.
  induction batches as [|cids batches IH]; intros w Hall Hsent.
  - cbn. by rewrite skipped_0.
  - apply Forall_cons in Hall as [Hcids Hall].
    cbn [map deliver_all fold_left concat].
    rewrite deliver_batch_skips by done.
    fold (deliver_all env (map (fun cids => delivery (events cids)) batches)
            (skipped env key (length cids) w)).
    rewrite IH by (done || by apply skipped_marked).
    by rewrite skipped_add, length_app.
Qed.

(** The first event of an unmarked pair whose call returns, followed in the
    same delivery by further events of the pair. *)
Lemma deliver_batch_send cid cids w :
  cid <> [] ->
  Forall (fun c : jsstr => c <> []) cids ->
  already_sent (DB w) key = false ->
  outbound_failure (graph env (length (outbox w)) (reply_call env cid w)) = None ->
  clock env (clock_reads w) <> 0 ->
  deliver env (delivery (events (cid :: cids))) w
  = skipped env key (length cids) (deliver env (delivery [event cid]) w).
Proof.
  intros Hcid Hcids Hfresh Hok Hclock.
  rewrite deliver_event_send by done. cbv zeta. rewrite Hok.
  rewrite deliver_changes by done. rewrite changes_of_delivery.
  unfold try_catch. cbn [map for_of]. unfold bind.
  rewrite handle_change_event by done. cbv zeta. rewrite Hfresh, Hok.
  rewrite for_of_skips; [done | done |].
  by apply (already_sent_insert (DB w)).
Qed.

End Deliveries.

(** ** What a delivery can and cannot change *)

Section Frame.

Variable env : Env.

Lemma log_extends_refl P l : log_extends P l l.
Proof. exists [], (length l). split; [by rewrite take_ge | constructor]. Qed.

Lemma log_extends_cons (P : LogEntry -> Prop) e l :
  P e -> log_extends P l (e :: take 199 l).
Proof. intros He. exists [e], 199%nat. split; [done | by repeat constructor]. Qed.

Lemma log_extends_trans P l1 l2 l3 :
  log_extends P l1 l2 -> log_extends P l2 l3 -> log_extends P l1 l3.
Proof.
  intros (n1 & k1 & -> & H1) (n2 & k2 & -> & H2).
  exists (n2 ++ take k2 n1), (Nat.min (k2 - length n1) k1). split.
  - by rewrite take_app, take_take, app_assoc.
  - apply Forall_app. split; [done | by apply Forall_take].
Qed.

(** A change is either ignored or a comment event with three non-empty
    identifiers. *)
Lemma change_cases (c : Change) :
  (forall w, handle_change env c w = (Ret tt, w))
  \/ (exists comment_id post_id commenter_id : jsstr,
        comment_id <> [] /\ post_id <> [] /\ commenter_id <> []
        /\ c = comment_event comment_id post_id commenter_id).
Proof.
  destruct c as [[[ [[|a cid]|] [[[[|b p]|]]|] [[[[|d u]|]]|] ]|]];
    try (left; intros w; reflexivity).
  right. exists (a :: cid), (b :: p), (d :: u). by repeat split.
Qed.

Lemma step_ok_refl w : step_ok w w.
Proof.
  split; [done | done | apply log_extends_refl | exists []; by rewrite app_nil_r].
Qed.

Lemma step_ok_trans w1 w2 w3 : step_ok w1 w2 -> step_ok w2 w3 -> step_ok w1 w3.
Proof.
  intros [Hd1 Hm1 Hl1 [c1 Ho1]] [Hd2 Hm2 Hl2 [c2 Ho2]]. split.
  - congruence.
  - auto.
  - eapply log_extends_trans; eassumption.
  - exists (c1 ++ c2). by rewrite Ho2, Ho1, app_assoc.
Qed.

Lemma handle_change_step_ok (c : Change) w :
  step_ok w (snd (handle_change env c w)).
Proof.
  destruct (change_cases c) as [Hign | (cid & p & u & Hc & Hp & Hu & ->)].
  - rewrite Hign. apply step_ok_refl.
  - rewrite handle_change_event by done.
    destruct (already_sent (DB w) (dedupe_key (Some p) (Some u))) eqn:Hsent.
    + split; cbn; [done | done | | exists []; by rewrite app_nil_r].
      apply log_extends_cons. by right.
    + cbv zeta. destruct (outbound_failure _) as [e|].
      * split; cbn; [done | done | apply log_extends_refl | by eexists].
      * split; cbn; [done | | | by eexists].
        -- intros k Hk.
           assert (Hne : dedupe_key (Some p) (Some u) <> k)
             by (intros <-; congruence).
           unfold already_sent in *. cbn.
           by rewrite lookup_insert_ne.
        -- apply log_extends_cons. by left.
Qed.

Lemma for_of_step_ok (cs : list Change) : forall w,
  step_ok w (snd (for_of cs (handle_change env) w)).
Proof.
  induction cs as [|c cs IH]; intros w; [apply step_ok_refl|].
  cbn [for_of]. unfold bind.
  pose proof (handle_change_step_ok c w) as Hc.
  destruct (handle_change env c w) as [[[]|e] w1]; cbn [snd] in *; [|done].
  eapply step_ok_trans; [exact Hc | apply IH].
Qed.

(** No webhook delivery, whatever it carries and however it ends, unmarks
    a key. *)
Lemma deliver_keeps_marks (body : Payload) w k :
  already_sent (DB w) k = true -> already_sent (DB (deliver env body w)) k = true.
Proof.
  intros Hk.
  destruct (decide (payload_object body = Some (str "instagram"))) as [Hobj|Hobj].
  - rewrite deliver_changes by done. unfold try_catch.
    pose proof (for_of_step_ok (changes_of body) w) as Hs.
    destruct (for_of _ _ w) as [[[]|e] w1]; cbn [snd] in Hs.
    + by apply (step_marks _ _ Hs).
    + cbn. by apply (step_marks _ _ Hs).
  - unfold deliver, post_webhook, try_catch, process_payload. cbn [snd].
    apply strict_eq_false in Hobj. by rewrite Hobj.
Qed.

End Frame.

(** ** Deduplication *)

(** X16. For a pair of non-empty identifiers, when the deliveries are
    handled one at a time, each to its end before the next request is
    served: the first delivery of a comment event of the pair, with the key
    not yet marked, issues the outbound reply and, when the call returns
    and the clock reads a non-zero time, marks the key, and further events
    of the pair in that same delivery are only skipped; every delivery for
    the pair made while the key is marked issues no call and heads the log
    with a "skip" entry; a run of such deliveries, of any sizes, adds
    nothing but one skip per event; and no webhook delivery at all removes
    the mark. *)
Theorem X16_one_at_a_time_one_reply (env : Env) (post_id commenter_id : jsstr) :
  post_id <> [] -> commenter_id <> [] ->
  let key := dedupe_key (Some post_id) (Some commenter_id) in
  let events := map (fun cid : jsstr => comment_event cid post_id commenter_id) in
  (forall (w : World) (comment_id : jsstr) (more : list jsstr),
      comment_id <> [] ->
      Forall (fun cid : jsstr => cid <> []) more ->
      already_sent (DB w) key = false ->
      outbound_failure (graph env (length (outbox w)) (reply_call env comment_id w)) = None ->
      clock env (clock_reads w) <> 0 ->
      let w1 := deliver env (delivery (events [comment_id])) w in
      let w1' := deliver env (delivery (events (comment_id :: more))) w in
      outbox w1 = outbox w ++ [reply_call env comment_id w]
      /\ sent_keys (DB w1) = <[key := clock env (clock_reads w)]> (sent_keys (DB w))
      /\ already_sent (DB w1) key = true
      /\ logs (DB w1)
         = sent_entry (clock env (S (clock_reads w))) key comment_id
           :: take 199 (logs (DB w))
      /\ file w1 = Some (DB w1)
      /\ w1' = skipped env key (length more) w1
      /\ outbox w1' = outbox w1)
  /\ (forall (w : World) (comment_id : jsstr),
      comment_id <> [] ->
      already_sent (DB w) key = true ->
      let w2 := deliver env (delivery (events [comment_id])) w in
      outbox w2 = outbox w
      /\ logs (DB w2) = skip_entry (clock env (clock_reads w)) key :: take 199 (logs (DB w))
      /\ sent_keys (DB w2) = sent_keys (DB w)
      /\ already_sent (DB w2) key = true)
  /\ (forall (w : World) (batches : list (list jsstr)),
      Forall (Forall (fun cid : jsstr => cid <> [])) batches ->
      already_sent (DB w) key = true ->
      let w' := deliver_all env (map (fun cids => delivery (events cids)) batches) w in
      w' = skipped env key (length (concat batches)) w
      /\ outbox w' = outbox w
      /\ sent_keys (DB w') = sent_keys (DB w)
      /\ already_sent (DB w') key = true)
  /\ (forall (w : World) (body : Payload),
      already_sent (DB w) key = true ->
      already_sent (DB (deliver env body w)) key = true).
Proof.
  intros Hp Hu key events. repeat apply conj.
  - intros w cid more Hc Hmore Hfresh Hok Hclock w1 w1'. subst w1 w1' events.
    rewrite (deliver_batch_send env post_id commenter_id Hp Hu cid more w)
      by assumption.
    cbn [map].
    pose proof (deliver_event_send env post_id commenter_id Hp Hu cid w Hc Hfresh) as Hd.
    cbv beta zeta in Hd. rewrite Hd, Hok. cbn.
    repeat split. by apply (already_sent_insert (DB w)).
  - intros w cid Hc Hsent w2. subst w2 events. cbn [map].
    rewrite (deliver_event_skip env post_id commenter_id Hp Hu cid w Hc Hsent).
    cbn. repeat split. exact Hsent.
  - intros w batches Hall Hsent w'. subst w' events.
    rewrite (deliver_all_skips env post_id commenter_id Hp Hu batches w Hall Hsent).
    destruct (skipped_frame env key (length (concat batches)) w) as (Hk & _ & Ho & _).
    repeat split; [exact Hk | by apply skipped_marked].
  - intros w body. apply deliver_keeps_marks.
Qed.

Lemma X16_one_at_a_time_one_reply_witness :
  let first := deliver sample_env
                 (delivery [comment_event (str "c1") (str "m7") (str "u3")]) (boot None) in
  outbox first
  = [ {| call_comment_id := str "c1";
         call_message := default_dm_text;
         call_access_token := Some (str "page-token") |} ]
  /\ outbox (deliver_all sample_env
               (map (fun cids =>
                       delivery (map (fun cid => comment_event cid (str "m7") (str "u3")) cids))
                    [[str "c2"]; [str "c1"; str "c9"]]) first)
     = outbox first.
Proof.
  assert (Hp : str "m7" <> []) by discriminate.
  assert (Hu : str "u3" <> []) by discriminate.
  pose proof (X16_one_at_a_time_one_reply sample_env (str "m7") (str "u3") Hp Hu)
    as (Hfirst & _ & Hrun & _).
  cbv zeta. split.
  - refine (proj1 (Hfirst (boot None) (str "c1") [] _ _ _ _ _));
      [discriminate | constructor | reflexivity | reflexivity | discriminate].
  - refine (proj1 (proj2 (Hrun _ [[str "c2"]; [str "c1"; str "c9"]] _ _))).
    + repeat constructor; discriminate.
    + vm_compute. reflexivity.
Defined.




(** ** Failure of the outbound call *)

Lemma failure_reason_message (e : JsError) :
  err_message e <> [] -> failure_reason e = err_message e.
Proof.
  intros He. apply str_truthy_iff in He. unfold failure_reason. by rewrite He.
Qed.

Lemma failure_reason_name (e : JsError) :
  err_message e = [] -> failure_reason e = err_name e.
Proof.
  intros He. unfold failure_reason, error_to_string. rewrite He. cbn.
  by destruct (err_name e).
Qed.

(** C5. Let the changes of a webhook payload be [pre], then a comment event
    whose outbound call fails, then [rest], with [pre] processed without an
    exception.  The delivery heads the log with one "error" entry (the
    entries put there by [pre] are "sent" and "skip" only), writes the
    file, marks neither the failing key nor any later one, issues no call
    after the failing one, and ends in the same world as if [rest] were not
    there.  The reason in the entry is the stringified failure: the
    serialised JSON answer when the platform answered outside 2xx, the
    message of the exception that [fetch] or [r.json()] threw, or the name
    of that exception when its message is empty. *)
Theorem C5_failure_abandons_batch (env : Env) (body : Payload) (w w1 : World)
    (pre rest : list Change) (comment_id post_id commenter_id : jsstr) (e : JsError) :
  payload_object body = Some (str "instagram") ->
  changes_of body = pre ++ comment_event comment_id post_id commenter_id :: rest ->
  comment_id <> [] -> post_id <> [] -> commenter_id <> [] ->
  for_of pre (handle_change env) w = (Ret tt, w1) ->
  already_sent (DB w1) (dedupe_key (Some post_id) (Some commenter_id)) = false ->
  outbound_failure (graph env (length (outbox w1)) (reply_call env comment_id w1)) = Some e ->
  let w' := deliver env body w in
  logs (DB w')
  = error_entry (clock env (clock_reads w1)) (failure_reason e) :: take 199 (logs (DB w1))
  /\ log_extends quiet (logs (DB w)) (logs (DB w1))
  /\ file w' = Some (DB w')
  /\ sent_keys (DB w') = sent_keys (DB w1)
  /\ already_sent (DB w') (dedupe_key (Some post_id) (Some commenter_id)) = false
  /\ outbox w' = outbox w1 ++ [reply_call env comment_id w1]
  /\ w' = deliver env (delivery (pre ++ [comment_event comment_id post_id commenter_id])) w
  /\ (forall j, graph env (length (outbox w1)) (reply_call env comment_id w1) = Replied false j ->
       e = {| err_name := str "Error"; err_message := j |}
       /\ (j <> [] -> failure_reason e = j))
  /\ (forall e', graph env (length (outbox w1)) (reply_call env comment_id w1) = FetchThrows e' ->
       e = e')
  /\ (err_message e <> [] -> failure_reason e = err_message e)
  /\ (err_message e = [] -> failure_reason e = err_name e).
Proof.
  intros Hobj Hcs Hc Hp Hu Hpre Hfresh Hfail w'.
  assert (Hreason :
    (forall j, graph env (length (outbox w1)) (reply_call env comment_id w1) = Replied false j ->
       e = {| err_name := str "Error"; err_message := j |}
       /\ (j <> [] -> failure_reason e = j))
    /\ (forall e', graph env (length (outbox w1)) (reply_call env comment_id w1)
                   = FetchThrows e' -> e = e')
    /\ (err_message e <> [] -> failure_reason e = err_message e)
    /\ (err_message e = [] -> failure_reason e = err_name e)).
  { split; [|split; [|split]].
    - intros j Hj. rewrite Hj in Hfail. injection Hfail as <-.
      split; [done|].
      exact (failure_reason_message {| err_name := str "Error"; err_message := j |}).
    - intros e' He'. rewrite He' in Hfail. by injection Hfail.
    - apply failure_reason_message.
    - apply failure_reason_name. }
  set (w2 := {| DB := DB w1; file := file w1; clock_reads := clock_reads w1;
                outbox := outbox w1 ++ [reply_call env comment_id w1] |}).
  assert (Hthrow : handle_change env (comment_event comment_id post_id commenter_id) w1
                   = (Throw e, w2)).
  { rewrite handle_change_event by done. cbv zeta. by rewrite Hfresh, Hfail. }
  assert (Hw : w' = on_failure env e w2).
  { subst w'. rewrite deliver_changes by done. unfold try_catch.
    by rewrite Hcs, (for_of_throws _ pre _ rest w w1 w2 e Hpre Hthrow). }
  assert (Hshort : deliver env (delivery (pre ++ [comment_event comment_id post_id commenter_id])) w
                   = on_failure env e w2).
  { rewrite deliver_changes by done. unfold try_catch.
    by rewrite changes_of_delivery, (for_of_throws _ pre _ [] w w1 w2 e Hpre Hthrow). }
  rewrite Hshort, Hw. cbn [on_failure saveData addLogDB read_clock set_DB addLog slice0
                             DB logs file sent_keys outbox clock_reads].
  split; [done|]. split.
  { pose proof (for_of_step_ok env pre w) as Hs. rewrite Hpre in Hs.
    exact (step_logs _ _ Hs). }
  split; [done|]. split; [done|]. split; [exact Hfresh|].
  split; [done|]. split; [done|]. exact Hreason.
Qed.

Lemma C5_failure_abandons_batch_witness :
  let w' := deliver flaky_env sample_batch (boot None) in
  logs (DB w')
  = [ error_entry 1700000000002 (str "{error:190}");
      sent_entry 1700000000001 (str "m1:u7") (str "c1") ]
  /\ already_sent (DB w') (str "m1:u8") = false
  /\ already_sent (DB w') (str "m1:u9") = false
  /\ length (outbox w') = 2%nat.
Proof.
  pose proof (C5_failure_abandons_batch flaky_env sample_batch (boot None)
                (snd (for_of [comment_event (str "c1") (str "m1") (str "u7")]
                        (handle_change flaky_env) (boot None)))
                [comment_event (str "c1") (str "m1") (str "u7")]
                [comment_event (str "c3") (str "m1") (str "u9")]
                (str "c2") (str "m1") (str "u8")
                {| err_name := str "Error"; err_message := str "{error:190}" |}) as H.
  cbv zeta in H.
  destruct H as (Hlogs & _ & _ & Hkeys & Hkey & Hout & _ & Hanswer & _);
    try reflexivity; try discriminate.
  cbv zeta. split; [|split; [|split]].
  - rewrite Hlogs.
    rewrite (proj2 (Hanswer (str "{error:190}") eq_refl)) by discriminate.
    reflexivity.
  - exact Hkey.
  - unfold already_sent. rewrite Hkeys. reflexivity.
  - rewrite Hout. reflexivity.
Defined.

(** ** Persistence *)

(** The paths that call [saveData] leave the file equal to [DB]: a reply
    that was sent, the catch block, and the two admin updates. *)
Lemma saved_after_send env comment_id post_id commenter_id w :
  comment_id <> [] -> post_id <> [] -> commenter_id <> [] ->
  already_sent (DB w) (dedupe_key (Some post_id) (Some commenter_id)) = false ->
  let w' := deliver env (delivery [comment_event comment_id post_id commenter_id]) w in
  file w' = Some (DB w').
Proof.
  intros Hc Hp Hu Hfresh.
  pose proof (deliver_event_send env post_id commenter_id Hp Hu comment_id w Hc Hfresh) as Hd.
  cbv beta zeta in Hd. cbv zeta. rewrite Hd.
  by destruct (outbound_failure _).
Qed.

Lemma saved_after_admin env req w :
  authorized env req ->
  file (snd (post_admin_save env req w)) = Some (DB (snd (post_admin_save env req w)))
  /\ file (snd (post_admin_reset env req w)) = Some (DB (snd (post_admin_reset env req w))).
Proof.
  intros Hauth. unfold post_admin_save, post_admin_reset.
  by rewrite (requireAuth_authorized env req Hauth).
Qed.

(** The skip branch does not: the file is left as it was. *)
Lemma skip_leaves_file env comment_id post_id commenter_id w :
  comment_id <> [] -> post_id <> [] -> commenter_id <> [] ->
  already_sent (DB w) (dedupe_key (Some post_id) (Some commenter_id)) = true ->
  let w' := deliver env (delivery [comment_event comment_id post_id commenter_id]) w in
  file w' = file w
  /\ head (logs (DB w'))
     = Some (skip_entry (clock env (clock_reads w))
               (dedupe_key (Some post_id) (Some commenter_id))).
Proof.
  intros Hc Hp Hu Hsent.
  pose proof (deliver_event_skip env post_id commenter_id Hp Hu comment_id w Hc Hsent) as Hd.
  cbv zeta. by rewrite Hd.
Qed.

(** C8. The skip branch appends its log entry and continues without
    [saveData]: with the file in step with [DB] beforehand, a delivery for
    an already marked pair puts a "skip" entry in [DB.logs] and leaves the
    file as it was, so the file lacks the entry when the handler is done. *)
Theorem C8_skip_entry_not_written :
  let w' := deliver sample_env
              (delivery [comment_event (str "c5") (str "m1") (str "u1")]) sample_world in
  file sample_world = Some (DB sample_world)
  /\ logs (DB w') = [skip_entry 1700000000000 (str "m1:u1")]
  /\ file w' = Some sample_store
  /\ logs sample_store = []
  /\ file w' <> Some (DB w').
Proof.
  cbv zeta. repeat apply conj; try reflexivity.
  intros H. vm_compute in H. discriminate H.
Qed.

(** ** The key encoding *)

Lemma dedupe_key_app (post_id commenter_id : jsstr) :
  dedupe_key (Some post_id) (Some commenter_id) = post_id ++ 58%N :: commenter_id.
Proof. reflexivity. Qed.

Lemma colon_split_inj (p1 : jsstr) : forall (p2 c1 c2 : jsstr),
  58%N ∉ p1 -> 58%N ∉ p2 ->
  p1 ++ 58%N :: c1 = p2 ++ 58%N :: c2 -> p1 = p2 /\ c1 = c2.
Proof.
  induction p1 as [|x p1 IH]; intros [|y p2] c1 c2 H1 H2 Heq; simpl in Heq.
  - by injection Heq.
  - injection Heq as <- _. exfalso. apply H2. by left.
  - injection Heq as -> _. exfalso. apply H1. by left.
  - injection Heq as -> Heq.
    apply not_elem_of_cons in H1 as [_ H1]. apply not_elem_of_cons in H2 as [_ H2].
    destruct (IH p2 c1 c2 H1 H2 Heq) as [-> ->]. done.
Qed.

(** C10. The key [post_id + ":" + commenter_id] is not injective: the
    pairs ("a:b", "c") and ("a", "b:c") share the key "a:b:c", so once the
    first has been replied to, a comment event of the second is skipped
    without a call.  Among pairs whose post_id holds no ":" the key is
    injective. *)
Theorem C10_key_collision :
  ((str "a:b", str "c") <> (str "a", str "b:c")
   /\ dedupe_key (Some (str "a:b")) (Some (str "c"))
      = dedupe_key (Some (str "a")) (Some (str "b:c")))
  /\ (forall (env : Env) (w : World) (cid1 cid2 : jsstr),
        cid1 <> [] -> cid2 <> [] ->
        already_sent (DB w) (dedupe_key (Some (str "a")) (Some (str "b:c"))) = false ->
        outbound_failure (graph env (length (outbox w)) (reply_call env cid1 w)) = None ->
        clock env (clock_reads w) <> 0 ->
        let w1 := deliver env (delivery [comment_event cid1 (str "a:b") (str "c")]) w in
        let w2 := deliver env (delivery [comment_event cid2 (str "a") (str "b:c")]) w1 in
        outbox w1 = outbox w ++ [reply_call env cid1 w]
        /\ outbox w2 = outbox w1
        /\ head (logs (DB w2)) = Some (skip_entry (clock env (clock_reads w1)) (str "a:b:c")))
  /\ (forall p1 c1 p2 c2 : jsstr,
        58%N ∉ p1 -> 58%N ∉ p2 ->
        dedupe_key (Some p1) (Some c1) = dedupe_key (Some p2) (Some c2) ->
        p1 = p2 /\ c1 = c2).
Proof.
  split; [split; [discriminate | reflexivity]|]. split.
  - intros env w cid1 cid2 H1 H2 Hfresh Hok Hclock w1 w2.
    assert (Hp : str "a:b" <> []) by discriminate.
    assert (Hc : str "c" <> []) by discriminate.
    assert (Hp' : str "a" <> []) by discriminate.
    assert (Hc' : str "b:c" <> []) by discriminate.
    pose proof (deliver_event_send env (str "a:b") (str "c") Hp Hc cid1 w H1 Hfresh) as Hd.
    cbv beta zeta in Hd. rewrite Hok in Hd. fold w1 in Hd.
    assert (Hsent : already_sent (DB w1) (dedupe_key (Some (str "a")) (Some (str "b:c"))) = true).
    { rewrite Hd.
      exact (already_sent_insert (DB w) (dedupe_key (Some (str "a:b")) (Some (str "c")))
               (clock env (clock_reads w)) Hclock). }
    pose proof (deliver_event_skip env (str "a") (str "b:c") Hp' Hc' cid2 w1 H2 Hsent) as Hs.
    cbv beta zeta in Hs. fold w2 in Hs.
    split; [by rewrite Hd|]. rewrite Hs. split; reflexivity.
  - intros p1 c1 p2 c2 H1 H2. rewrite !dedupe_key_app. by apply colon_split_inj.
Qed.

Lemma C10_key_collision_witness :
  outbox (deliver_all sample_env
            [delivery [comment_event (str "c1") (str "a:b") (str "c")];
             delivery [comment_event (str "c2") (str "a") (str "b:c")]] (boot None))
  = [reply_call sample_env (str "c1") (boot None)]
  /\ (dedupe_key (Some (str "m1")) (Some (str "u:1")) = dedupe_key (Some (str "m1")) (Some (str "u:1"))
      -> str "m1" = str "m1" /\ str "u:1" = str "u:1").
Proof.
  destruct C10_key_collision as (_ & Hsuppress & Hinj).
  split.
  - pose proof (Hsuppress sample_env (boot None) (str "c1") (str "c2")) as H.
    cbv zeta in H.
    destruct H as (H1 & H2 & _);
      [discriminate | discriminate | reflexivity | reflexivity | discriminate |].
    cbn [deliver_all fold_left]. rewrite H2. exact H1.
  - apply Hinj; intros Hin; vm_compute in Hin;
      repeat (apply elem_of_cons in Hin as [Hin|Hin]; [discriminate Hin|]);
      by apply elem_of_nil in Hin.
Defined.

(** * Further properties of the handlers *)

(** ** One change, in general *)

Lemma actionable_comment_event (comment_id post_id commenter_id : jsstr) :
  comment_id <> [] -> post_id <> [] -> commenter_id <> [] ->
  actionable (comment_event comment_id post_id commenter_id) = true.
Proof.
  intros Hc Hp Hu. apply str_truthy_iff in Hc, Hp, Hu.
  unfold actionable. cbn. by rewrite Hc, Hp, Hu.
Qed.

Lemma actionable_inv (c : Change) :
  actionable c = true ->
  exists comment_id post_id commenter_id : jsstr,
    comment_id <> [] /\ post_id <> [] /\ commenter_id <> []
    /\ c = comment_event comment_id post_id commenter_id.
Proof.
  destruct c as [[[ [[|a cid]|] [[[[|b p]|]]|] [[[[|d u]|]]|] ]|]];
    try (intros H; discriminate H).
  intros _. exists (a :: cid), (b :: p), (d :: u). by repeat split.
Qed.

Lemma handle_change_inert env (c : Change) w :
  actionable c = false -> handle_change env c w = (Ret tt, w).
Proof.
  intros Hc. destruct (change_cases env c) as [Hign | (cid & p & u & H1 & H2 & H3 & ->)].
  - apply Hign.
  - by rewrite actionable_comment_event in Hc.
Qed.

(** The three ways an actionable change can go. *)
Lemma handle_change_actionable env (c : Change) w :
  actionable c = true ->
  let key := change_key c in
  let comment_id := subst_str (change_comment_id c) in
  let call := reply_call env comment_id w in
  handle_change env c w
  = if already_sent (DB w) key
    then (Ret tt, addLogDB env skip (str "Already messaged for this post")
                    [(str "key", key)] w)
    else match outbound_failure (graph env (length (outbox w)) call) with
         | Some e => (Throw e, push_call call w)
         | None =>
             (Ret tt,
              saveData (addLogDB env sent (str "DM sent via private reply")
                          [(str "key", key); (str "comment_id", comment_id)]
                          (mark_sent env key (push_call call w))))
         end.
Proof.
  intros Hc. destruct (actionable_inv c Hc) as (cid & p & u & H1 & H2 & H3 & ->).
  cbv zeta. by rewrite handle_change_event.
Qed.

(** ** Predicates kept by every request *)

Section Preserved.

Variable env : Env.
Variable P : World -> Prop.

Hypothesis P_addLog : forall ty m ex w, P w -> P (addLogDB env ty m ex w).
Hypothesis P_mark : forall k w, P w -> P (mark_sent env k w).
Hypothesis P_save : forall w, P w -> P (saveData w).
Hypothesis P_call : forall c w, P w -> P (push_call c w).
Hypothesis P_text : forall (t : jsstr) w,
  t <> [] ->
  P w -> P (set_DB {| dm_text := t; sent_keys := sent_keys (DB w); logs := logs (DB w) |} w).
Hypothesis P_reset : forall w,
  P w -> P (set_DB {| dm_text := dm_text (DB w); sent_keys := ∅; logs := logs (DB w) |} w).

Lemma handle_change_preserves (c : Change) w :
  P w -> P (snd (handle_change env c w)).
Proof.
  intros Hw. destruct (actionable c) eqn:Hc.
  - rewrite handle_change_actionable by done. cbv zeta.
    destruct (already_sent _ _); [by apply P_addLog|].
    destruct (outbound_failure _); cbn [snd]; auto.
  - by rewrite handle_change_inert.
Qed.

Lemma for_of_preserves (cs : list Change) : forall w,
  P w -> P (snd (for_of cs (handle_change env) w)).
Proof.
  induction cs as [|c cs IH]; intros w Hw; [done|].
  cbn [for_of]. unfold bind.
  pose proof (handle_change_preserves c w Hw) as Hc.
  destruct (handle_change env c w) as [[[]|e] w1]; cbn [snd] in *; auto.
Qed.

Lemma deliver_preserves (body : Payload) w : P w -> P (deliver env body w).
Proof.
  intros Hw.
  destruct (decide (payload_object body = Some (str "instagram"))) as [Hobj|Hobj].
  - rewrite deliver_changes by done. unfold try_catch.
    pose proof (for_of_preserves (changes_of body) w Hw) as Hs.
    destruct (for_of _ _ w) as [[[]|e] w1]; cbn [snd] in Hs; [done|].
    unfold on_failure. auto.
  - unfold deliver, post_webhook, try_catch, process_payload. cbn [snd].
    apply strict_eq_false in Hobj. by rewrite Hobj.
Qed.

Lemma serve_preserves (r : Request) w : P w -> P (snd (serve env r w)).
Proof.
  intros Hw. destruct r as [q|body| |req|req|req]; cbn [serve snd]; try done.
  - by apply deliver_preserves.
  - unfold get_admin. by destruct (requireAuth env req).
  - unfold post_admin_save. destruct (requireAuth env req); [done|]. cbn [snd].
    apply P_save, P_addLog.
    destruct (trim (or_default (body_dm_text req) [])) as [|x t] eqn:Ht; cbn.
    + by destruct w as [[]].
    + by apply P_text.
  - unfold post_admin_reset. destruct (requireAuth env req); [done|]. cbn [snd].
    by apply P_save, P_addLog, P_reset.
Qed.

Lemma serve_all_preserves (rs : list Request) : forall w,
  P w -> P (serve_all env rs w).
Proof.
  induction rs as [|r rs IH]; intros w Hw; [done|].
  cbn [serve_all fold_left]. apply IH. by apply serve_preserves.
Qed.

End Preserved.

(** ** The log stays bounded and in order *)

Lemma addLogDB_length env ty m ex w :
  (length (logs (DB (addLogDB env ty m ex w))) <= 200)%nat.
Proof. cbn. rewrite length_take. lia. Qed.

Lemma log_bound_preserved env (rs : list Request) w :
  (length (logs (DB w)) <= 200)%nat ->
  (length (logs (DB (serve_all env rs w))) <= 200)%nat.
Proof.
  apply (serve_all_preserves env (fun w => (length (logs (DB w)) <= 200)%nat));
    try done.
  intros ty m ex w0 _. apply addLogDB_length.
Qed.

(** X1. Starting from a log of at most 200 entries (an empty one after a
    start without a file), no run of requests to any of the routes leaves
    more than 200 entries in the log. *)
Theorem X1_log_never_exceeds_200 (env : Env) (rs : list Request) (w : World) :
  (length (logs (DB w)) <= 200)%nat ->
  (length (logs (DB (serve_all env rs w))) <= 200)%nat
  /\ (length (logs (DB (serve_all env rs (boot None)))) <= 200)%nat.
Proof.
  intros Hw. split; [by apply log_bound_preserved|].
  apply log_bound_preserved. cbn. lia.
Qed.

Lemma X1_log_never_exceeds_200_witness :
  (length (logs (DB (serve_all flaky_env sample_requests sample_world))) <= 200)%nat.
Proof.
  refine (proj1 (X1_log_never_exceeds_200 flaky_env sample_requests sample_world _)).
  cbn. lia.
Defined.

Lemma newest_first_cons_take (e : LogEntry) (l : list LogEntry) (n : nat) :
  newest_first l ->
  Forall (fun b => time b <= time e) l ->
  newest_first (e :: take n l).
Proof.
  intros Hl He i j a b Hij Hi Hj.
  destruct i as [|i], j as [|j]; cbn in Hi, Hj.
  - injection Hi as <-. injection Hj as <-. lia.
  - injection Hi as <-. apply lookup_take_Some in Hj as [Hj _].
    rewrite Forall_forall in He. apply He.
    by eapply list_elem_of_lookup_2.
  - lia.
  - apply lookup_take_Some in Hi as [Hi _]. apply lookup_take_Some in Hj as [Hj _].
    apply (Hl i j a b); [lia | done | done].
Qed.

Lemma chronological_later env w w' :
  monotone_clock env ->
  logs (DB w') = logs (DB w) ->
  (clock_reads w <= clock_reads w')%nat ->
  chronological env w -> chronological env w'.
Proof.
  intros Hmono Hlogs Hreads [Hord Hpast]. unfold chronological.
  rewrite Hlogs. split; [done|].
  eapply Forall_impl; [exact Hpast|]. cbn. intros e He.
  pose proof (Hmono _ _ Hreads). lia.
Qed.

Lemma chronological_addLog env ty m ex w :
  monotone_clock env ->
  chronological env w -> chronological env (addLogDB env ty m ex w).
Proof.
  intros Hmono [Hord Hpast]. unfold chronological. cbn.
  pose proof (Hmono (clock_reads w) (S (clock_reads w))) as Hstep.
  split.
  - by apply newest_first_cons_take.
  - constructor; [cbn; lia|]. apply Forall_take.
    eapply Forall_impl; [exact Hpast|]. cbn. intros e He. lia.
Qed.

Lemma chronological_preserved env (rs : list Request) w :
  monotone_clock env ->
  chronological env w -> chronological env (serve_all env rs w).
Proof.
  intros Hmono.
  apply (serve_all_preserves env (chronological env)).
  - intros. by apply chronological_addLog.
  - intros k w0. apply chronological_later; [done | done | cbn; lia].
  - intros w0. by apply chronological_later.
  - intros c w0. by apply chronological_later.
  - intros t w0 _. by apply chronological_later.
  - intros w0. by apply chronological_later.
Qed.

(** X2. When the clock never runs backwards and the log is in order with
    no entry stamped after the current reading (as after a start without a
    file), every run of requests leaves the log ordered newest first, each
    entry stamped no later than the clock then reads. *)
Theorem X2_log_stays_newest_first (env : Env) (rs : list Request) (w : World) :
  monotone_clock env ->
  chronological env w ->
  newest_first (logs (DB (serve_all env rs w)))
  /\ Forall (fun e => time e <= clock env (clock_reads (serve_all env rs w)))
       (logs (DB (serve_all env rs w))).
Proof.
  intros Hmono Hw. by apply chronological_preserved.
Qed.

Lemma X2_log_stays_newest_first_witness :
  newest_first (logs (DB (serve_all flaky_env sample_requests (boot None)))).
Proof.
  refine (proj1 (X2_log_stays_newest_first flaky_env sample_requests (boot None) _ _)).
  - intros m n Hmn. cbn. lia.
  - split; [|constructor]. intros i j a b _ Hi. by destruct i.
Defined.

(** ** The reply text *)

Lemma dm_text_nonempty_preserved env (rs : list Request) w :
  dm_text (DB w) <> [] -> dm_text (DB (serve_all env rs w)) <> [].
Proof.
  by apply (serve_all_preserves env (fun w => dm_text (DB w) <> [])).
Qed.

Lemma reply_message_nonempty (d : Store) :
  dm_text d <> [] -> reply_message d = dm_text d.
Proof.
  intros Hd. apply str_truthy_iff in Hd. unfold reply_message. by rewrite Hd.
Qed.

(** X3. A non-empty reply text can never be blanked: after any run of
    requests it is still non-empty, so the message of the next reply is the
    stored text and not the built-in fallback. *)
Theorem X3_reply_text_stays_nonempty (env : Env) (rs : list Request) (w : World) :
  dm_text (DB w) <> [] ->
  let w' := serve_all env rs w in
  dm_text (DB w') <> []
  /\ reply_message (DB w') = dm_text (DB w')
  /\ forall comment_id, call_message (reply_call env comment_id w') = dm_text (DB w').
Proof.
  intros Hw w'.
  assert (Hw' : dm_text (DB w') <> []) by (by apply dm_text_nonempty_preserved).
  split; [done|]. split; [|intros cid; cbn]; by apply reply_message_nonempty.
Qed.

Lemma X3_reply_text_stays_nonempty_witness :
  dm_text (DB (serve_all flaky_env sample_requests sample_world)) <> [].
Proof.
  refine (proj1 (X3_reply_text_stays_nonempty flaky_env sample_requests sample_world _)).
  discriminate.
Defined.

Lemma requireAuth_None env req : requireAuth env req = None -> authorized env req.
Proof.
  unfold requireAuth, authorized.
  destruct (truthy (ADMIN_PASSWORD env)); cbn; [|done].
  destruct (strict_eq (supplied_pass req) (ADMIN_PASSWORD env)) eqn:Heq; cbn; [|done].
  intros _. split; [done|]. by apply strict_eq_true.
Qed.

Lemma deliver_dm_text env (body : Payload) w :
  dm_text (DB (deliver env body w)) = dm_text (DB w).
Proof.
  by apply (deliver_preserves env (fun w' => dm_text (DB w') = dm_text (DB w))).
Qed.

Lemma trim_nonempty_has_ink (s : jsstr) :
  trim s <> [] -> exists c, c ∈ s /\ is_ws c = false.
Proof.
  intros Hne.
  destruct (trim_spec s) as ((pre & post & Hs & _ & _) & Hhead & _).
  destruct (trim s) as [|c t] eqn:Ht; [done|].
  exists c. split; [|by apply Hhead].
  rewrite Hs. apply elem_of_app. right. by left.
Qed.

(** X4. The reply text changes through nothing but an authorised POST
    /admin/save whose submitted text holds a character other than white
    space; the new text is then the trimmed submission. *)
Theorem X4_only_save_changes_text (env : Env) (r : Request) (w : World) :
  dm_text (DB (snd (serve env r w))) <> dm_text (DB w) ->
  exists req : AdminRequest,
    r = POST_admin_save req
    /\ authorized env req
    /\ (exists c, c ∈ or_default (body_dm_text req) [] /\ is_ws c = false)
    /\ dm_text (DB (snd (serve env r w))) = trim (or_default (body_dm_text req) []).
Proof.
  destruct r as [q|body| |req|req|req]; cbn [serve snd]; try done.
  - fold (deliver env body w). by rewrite deliver_dm_text.
  - unfold get_admin. by destruct (requireAuth env req).
  - unfold post_admin_save. destruct (requireAuth env req) eqn:Hauth; [done|].
    cbn [snd]. intros Hch. exists req. split; [done|].
    split; [by apply requireAuth_None|].
    cbn in Hch |- *.
    destruct (trim (or_default (body_dm_text req) [])) as [|c t] eqn:Ht;
      cbn in Hch |- *; [done|].
    split; [|done]. apply trim_nonempty_has_ink. by rewrite Ht.
  - unfold post_admin_reset. by destruct (requireAuth env req).
Qed.

Lemma X4_only_save_changes_text_witness :
  exists req : AdminRequest,
    POST_admin_save (mkAdmin (Some (str "hunter2")) None (Some (str " Hi there ")))
    = POST_admin_save req
    /\ authorized sample_env req
    /\ (exists c, c ∈ or_default (body_dm_text req) [] /\ is_ws c = false)
    /\ dm_text (DB (snd (serve sample_env
                           (POST_admin_save
                              (mkAdmin (Some (str "hunter2")) None (Some (str " Hi there "))))
                           sample_world)))
       = trim (or_default (body_dm_text req) []).
Proof.
  apply (X4_only_save_changes_text sample_env
           (POST_admin_save (mkAdmin (Some (str "hunter2")) None (Some (str " Hi there "))))
           sample_world).
  vm_compute. discriminate.
Defined.

(** X5. A marked key is unmarked by nothing but an authorised POST
    /admin/reset: every other request, webhook deliveries and saves
    included, leaves every marked key marked. *)
Theorem X5_only_reset_unmarks (env : Env) (r : Request) (w : World) (k : jsstr) :
  already_sent (DB w) k = true ->
  already_sent (DB (snd (serve env r w))) k = false ->
  exists req : AdminRequest, r = POST_admin_reset req /\ authorized env req.
Proof.
  intros Hk.
  destruct r as [q|body| |req|req|req]; cbn [serve snd]; try congruence.
  - fold (deliver env body w). by rewrite deliver_keeps_marks.
  - unfold get_admin. destruct (requireAuth env req); cbn; congruence.
  - unfold post_admin_save. destruct (requireAuth env req); cbn [snd]; [congruence|].
    unfold already_sent in *. cbn. congruence.
  - unfold post_admin_reset.
    destruct (requireAuth env req) eqn:Hauth; cbn [snd]; [congruence|].
    intros _. exists req. split; [done | by apply requireAuth_None].
Qed.

Lemma X5_only_reset_unmarks_witness :
  exists req : AdminRequest,
    POST_admin_reset (mkAdmin None (Some (str "hunter2")) None) = POST_admin_reset req
    /\ authorized sample_env req.
Proof.
  apply (X5_only_reset_unmarks sample_env
           (POST_admin_reset (mkAdmin None (Some (str "hunter2")) None))
           sample_world (str "m1:u1")); reflexivity.
Defined.

(** ** Restarts *)

Lemma for_of_invariant {A} (P : World -> Prop) (f : A -> M unit) :
  (forall x w, P w -> P (snd (f x w))) ->
  forall xs w, P w -> P (snd (for_of xs f w)).
Proof.
  intros Hf xs. induction xs as [|x xs IH]; intros w Hw; [done|].
  cbn [for_of]. unfold bind. pose proof (Hf x w Hw) as Hx.
  destruct (f x w) as [[[]|e] w1]; cbn [snd] in *; auto.
Qed.

Lemma deliver_invariant env (P : World -> Prop) :
  (forall c w, P w -> P (snd (handle_change env c w))) ->
  (forall e w, P w -> P (on_failure env e w)) ->
  forall body w, P w -> P (deliver env body w).
Proof.
  intros Hstep Hfail body w Hw.
  destruct (decide (payload_object body = Some (str "instagram"))) as [Hobj|Hobj].
  - rewrite deliver_changes by done. unfold try_catch.
    pose proof (for_of_invariant P (handle_change env) Hstep (changes_of body) w Hw) as Hs.
    destruct (for_of _ _ w) as [[[]|e] w1]; cbn [snd] in Hs; auto.
  - unfold deliver, post_webhook, try_catch, process_payload. cbn [snd].
    apply strict_eq_false in Hobj. by rewrite Hobj.
Qed.

Lemma durable_saveData w : durable (saveData w).
Proof. by split. Qed.

Lemma durable_handle_change env (c : Change) w :
  durable w -> durable (snd (handle_change env c w)).
Proof.
  intros Hw. destruct (actionable c) eqn:Hc.
  - rewrite handle_change_actionable by done. cbv zeta.
    destruct (already_sent _ _); [exact Hw|].
    destruct (outbound_failure _); cbn [snd]; [exact Hw | apply durable_saveData].
  - by rewrite handle_change_inert.
Qed.

Lemma durable_serve env (r : Request) w : durable w -> durable (snd (serve env r w)).
Proof.
  intros Hw. destruct r as [q|body| |req|req|req]; cbn [serve snd]; try done.
  - apply (deliver_invariant env durable); [apply durable_handle_change | | done].
    intros e w0 _. apply durable_saveData.
  - unfold get_admin. by destruct (requireAuth env req).
  - unfold post_admin_save. destruct (requireAuth env req); [done|]. apply durable_saveData.
  - unfold post_admin_reset. destruct (requireAuth env req); [done|]. apply durable_saveData.
Qed.

Lemma durable_serve_all env (rs : list Request) : forall w,
  durable w -> durable (serve_all env rs w).
Proof.
  induction rs as [|r rs IH]; intros w Hw; [done|].
  cbn [serve_all fold_left]. apply IH. by apply durable_serve.
Qed.

Lemma durable_boot (f : option Store) : durable (boot f).
Proof. by split. Qed.

(** The log and the file have no influence on what a change does. *)
Lemma handle_change_same_but_logs env (c : Change) w1 w2 :
  same_but_logs w1 w2 ->
  fst (handle_change env c w1) = fst (handle_change env c w2)
  /\ same_but_logs (snd (handle_change env c w1)) (snd (handle_change env c w2)).
Proof.
  destruct w1 as [[t1 k1 l1] f1 r1 o1], w2 as [[t2 k2 l2] f2 r2 o2].
  intros (Hk & Ht & Hr & Ho). cbn in Hk, Ht, Hr, Ho. subst.
  destruct (actionable c) eqn:Hc.
  - rewrite !handle_change_actionable by done. cbv zeta.
    unfold already_sent, reply_call, reply_message. cbn.
    destruct (k2 !! change_key c) as [t|]; [destruct (negb (t =? 0))|]; cbn;
      try done;
      destruct (outbound_failure _); cbn; done.
  - by rewrite !handle_change_inert.
Qed.

Lemma for_of_same_but_logs env (cs : list Change) : forall w1 w2,
  same_but_logs w1 w2 ->
  fst (for_of cs (handle_change env) w1) = fst (for_of cs (handle_change env) w2)
  /\ same_but_logs (snd (for_of cs (handle_change env) w1))
                   (snd (for_of cs (handle_change env) w2)).
Proof.
  induction cs as [|c cs IH]; intros w1 w2 Hw; [done|].
  cbn [for_of]. unfold bind.
  destruct (handle_change_same_but_logs env c w1 w2 Hw) as [Hr Hs].
  destruct (handle_change env c w1) as [[[]|e1] w1'],
           (handle_change env c w2) as [[[]|e2] w2']; cbn [fst snd] in *;
    try discriminate Hr.
  - by apply IH.
  - done.
Qed.

Lemma deliver_same_but_logs env (body : Payload) w1 w2 :
  same_but_logs w1 w2 ->
  same_but_logs (deliver env body w1) (deliver env body w2).
Proof.
  intros Hw.
  destruct (decide (payload_object body = Some (str "instagram"))) as [Hobj|Hobj].
  - rewrite !deliver_changes by done. unfold try_catch.
    destruct (for_of_same_but_logs env (changes_of body) w1 w2 Hw) as [Hr Hs].
    destruct (for_of _ _ w1) as [[[]|e1] w1'],
             (for_of _ _ w2) as [[[]|e2] w2']; cbn [fst snd] in *;
      try discriminate Hr; [done|].
    destruct Hs as (Hk & Ht & Hc & Ho). unfold same_but_logs. cbn.
    by rewrite Hc.
  - unfold deliver, post_webhook, try_catch, process_payload. cbn [snd].
    apply strict_eq_false in Hobj. by rewrite Hobj.
Qed.

Lemma restart_same_but_logs w : durable w -> same_but_logs (restart w) w.
Proof. intros [Hk Ht]. by repeat split. Qed.

(** X6. After any run of requests since a start of the process, stopping
    it and starting it again from the file restores the same dedupe set and
    the same reply text; the next webhook delivery therefore issues the same
    outbound calls and ends with the same dedupe set as it would have
    without the restart. *)
Theorem X6_restart_keeps_dedupe_state (env : Env) (f : option Store)
    (rs : list Request) :
  let w := serve_all env rs (boot f) in
  sent_keys (DB (restart w)) = sent_keys (DB w)
  /\ dm_text (DB (restart w)) = dm_text (DB w)
  /\ (forall k, already_sent (DB (restart w)) k = already_sent (DB w) k)
  /\ (forall body : Payload,
        outbox (deliver env body (restart w)) = outbox (deliver env body w)
        /\ sent_keys (DB (deliver env body (restart w)))
           = sent_keys (DB (deliver env body w))).
Proof.
  intros w.
  assert (Hd : durable w) by (apply durable_serve_all, durable_boot).
  destruct Hd as [Hk Ht].
  split; [exact Hk|]. split; [exact Ht|]. split.
  - intros k. unfold already_sent. cbn. by rewrite Hk.
  - intros body.
    destruct (deliver_same_but_logs env body (restart w) w) as (Hk' & _ & _ & Ho').
    + apply restart_same_but_logs. by split.
    + by split.
Qed.

(** ** What a delivery passes over *)

Lemma for_of_filter_actionable env (cs : list Change) : forall w,
  for_of cs (handle_change env) w
  = for_of (List.filter actionable cs) (handle_change env) w.
Proof.
  induction cs as [|c cs IH]; intros w; [done|].
  cbn [for_of List.filter]. destruct (actionable c) eqn:Hc.
  - cbn [for_of]. unfold bind.
    destruct (handle_change env c w) as [[[]|e] w1]; [apply IH | done].
  - unfold bind. rewrite handle_change_inert by done. apply IH.
Qed.

Lemma deliver_foreign env (body : Payload) w :
  payload_object body <> Some (str "instagram") -> deliver env body w = w.
Proof.
  intros Hobj. unfold deliver, post_webhook, try_catch, process_payload. cbn [snd].
  apply strict_eq_false in Hobj. by rewrite Hobj.
Qed.

(** ** What a delivery sends *)

Lemma reply_message_dm_text (d1 d2 : Store) :
  dm_text d1 = dm_text d2 -> reply_message d1 = reply_message d2.
Proof. unfold reply_message. by intros ->. Qed.

Lemma handle_change_calls env (c : Change) w :
  dm_text (DB (snd (handle_change env c w))) = dm_text (DB w)
  /\ (outbox (snd (handle_change env c w)) = outbox w
      \/ (actionable c = true
          /\ outbox (snd (handle_change env c w))
             = outbox w ++ [reply_call env (subst_str (change_comment_id c)) w])).
Proof.
  destruct (actionable c) eqn:Hc.
  - rewrite handle_change_actionable by done. cbv zeta.
    destruct (already_sent _ _); [by split; [|left]|].
    destruct (outbound_failure _); cbn [snd]; (split; [done | by right]).
  - rewrite handle_change_inert by done. split; [done | by left].
Qed.

Lemma call_from_weaken env d c cs call :
  call_from env d cs call -> call_from env d (c :: cs) call.
Proof.
  intros (Hm & Ht & c' & Hin & Hact & Hid). repeat split; [done | done |].
  exists c'. split; [by right | done].
Qed.

Lemma for_of_calls env (cs : list Change) : forall w,
  exists calls : list OutCall,
    outbox (snd (for_of cs (handle_change env) w)) = outbox w ++ calls
    /\ Forall (call_from env (DB w) cs) calls
    /\ (length calls <= length (List.filter actionable cs))%nat.
Proof.
  induction cs as [|c cs IH]; intros w.
  - exists []. cbn. by rewrite app_nil_r.
  - cbn [for_of]. unfold bind.
    destruct (handle_change_calls env c w) as [Htext Hc].
    destruct (handle_change env c w) as [[[]|e] w1] eqn:Hstep; cbn [snd] in *.
    + destruct (IH w1) as (calls & Ho & Hfrom & Hlen).
      assert (Hfrom' : Forall (call_from env (DB w) (c :: cs)) calls).
      { eapply Forall_impl; [exact Hfrom|]. intros call Hcall.
        apply call_from_weaken. destruct Hcall as (Hm & Ht & Hex).
        split; [|done]. rewrite Hm. by apply reply_message_dm_text. }
      destruct Hc as [Hsame | [Hact Hpush]].
      * exists calls. rewrite Ho, Hsame. split; [done|]. split; [done|].
        cbn [List.filter]. destruct (actionable c); cbn; lia.
      * exists (reply_call env (subst_str (change_comment_id c)) w :: calls).
        rewrite Ho, Hpush, <- app_assoc. split; [done|]. split.
        -- constructor; [|done]. repeat split. exists c. by split; [left|].
        -- cbn [List.filter]. rewrite Hact. cbn. lia.
    + destruct Hc as [Hsame | [Hact Hpush]].
      * exists []. rewrite app_nil_r.
        split; [done|]. split; [constructor | apply Nat.le_0_l].
      * exists [reply_call env (subst_str (change_comment_id c)) w].
        split; [done|]. split.
        -- constructor; [|done]. repeat split. exists c. by split; [left|].
        -- cbn [List.filter]. rewrite Hact. cbn. lia.
Qed.

(** ** One key for every reply *)

Section Accounting.

Variable env : Env.
Hypothesis clock_nonzero : forall n, clock env n <> 0.

Lemma already_sent_false_None (d : Store) (k : jsstr) :
  stamps_nonzero d -> already_sent d k = false -> sent_keys d !! k = None.
Proof.
  intros Hd. unfold already_sent.
  destruct (sent_keys d !! k) as [t|] eqn:Hk; [|done].
  intros Ht. apply negb_false_iff, Z.eqb_eq in Ht. by destruct (Hd k t Hk).
Qed.

Lemma stamps_nonzero_insert (d : Store) (k : jsstr) (t : Z) :
  t <> 0 -> stamps_nonzero d ->
  stamps_nonzero {| dm_text := dm_text d; sent_keys := <[k := t]> (sent_keys d);
                    logs := logs d |}.
Proof.
  intros Ht Hd k' t'. cbn. rewrite lookup_insert.
  case_decide; [by intros [= <-] | apply Hd].
Qed.

Lemma handle_change_accounting (c : Change) w :
  stamps_nonzero (DB w) ->
  let r := fst (handle_change env c w) in
  let w' := snd (handle_change env c w) in
  stamps_nonzero (DB w')
  /\ (length (outbox w') + size (sent_keys (DB w))
      = length (outbox w) + size (sent_keys (DB w')) + threw r)%nat.
Proof.
  intros Hw. destruct (actionable c) eqn:Hc.
  - rewrite handle_change_actionable by done. cbv zeta.
    destruct (already_sent _ _) eqn:Hsent; [cbn; split; [done | lia]|].
    destruct (outbound_failure _); cbn [fst snd threw].
    + cbn. rewrite length_app. cbn. split; [done | lia].
    + cbn. split.
      * apply (stamps_nonzero_insert (DB w)); [apply clock_nonzero | done].
      * rewrite length_app, map_size_insert_None
          by (by apply already_sent_false_None).
        cbn. lia.
  - rewrite handle_change_inert by done. cbn. split; [done | lia].
Qed.

Lemma for_of_accounting (cs : list Change) : forall w,
  stamps_nonzero (DB w) ->
  let r := fst (for_of cs (handle_change env) w) in
  let w' := snd (for_of cs (handle_change env) w) in
  stamps_nonzero (DB w')
  /\ (length (outbox w') + size (sent_keys (DB w))
      = length (outbox w) + size (sent_keys (DB w')) + threw r)%nat.
Proof.
  induction cs as [|c cs IH]; intros w Hw; [cbn; split; [done | lia]|].
  cbn [for_of]. unfold bind.
  destruct (handle_change_accounting c w Hw) as [Hs Hn].
  destruct (handle_change env c w) as [[[]|e] w1]; cbn [fst snd threw] in *.
  - destruct (IH w1 Hs) as [Hs' Hn']. split; [done | lia].
  - split; [done | lia].
Qed.

Lemma deliver_accounting (body : Payload) w :
  stamps_nonzero (DB w) ->
  let w' := deliver env body w in
  stamps_nonzero (DB w')
  /\ (length (outbox w') + size (sent_keys (DB w))
      = length (outbox w) + size (sent_keys (DB w'))
        + threw (fst (process_payload env body w)))%nat.
Proof.
  intros Hw.
  destruct (decide (payload_object body = Some (str "instagram"))) as [Hobj|Hobj].
  - cbv zeta. rewrite deliver_changes, process_payload_changes by done.
    unfold try_catch.
    destruct (for_of_accounting (changes_of body) w Hw) as [Hs Hn].
    by destruct (for_of _ _ w) as [[[]|e] w1].
  - cbv zeta. rewrite deliver_foreign by done.
    unfold process_payload. apply strict_eq_false in Hobj. rewrite Hobj.
    cbn. split; [done | lia].
Qed.

End Accounting.

(** ** Deliveries that come again *)

Section Redelivery.

Variable env : Env.
Hypothesis clock_nonzero : forall n, clock env n <> 0.

(** A change that went through without an exception has its key marked. *)
Lemma handle_change_marks (c : Change) w w1 :
  actionable c = true ->
  handle_change env c w = (Ret tt, w1) ->
  already_sent (DB w1) (change_key c) = true.
Proof.
  intros Hc. rewrite handle_change_actionable by done. cbv zeta.
  destruct (already_sent (DB w) (change_key c)) eqn:Hsent.
  - intros [= <-]. exact Hsent.
  - destruct (outbound_failure _); [discriminate|].
    intros [= <-]. cbn. apply (already_sent_insert (DB w)), clock_nonzero.
Qed.

Lemma for_of_marks_all (cs : list Change) : forall w w1,
  for_of cs (handle_change env) w = (Ret tt, w1) ->
  forall c, c ∈ cs -> actionable c = true ->
            already_sent (DB w1) (change_key c) = true.
Proof.
  induction cs as [|c0 cs IH]; intros w w1 Hrun c Hin Hc.
  - by apply elem_of_nil in Hin.
  - cbn [for_of] in Hrun. unfold bind in Hrun.
    destruct (handle_change env c0 w) as [[[]|e] wa] eqn:Hstep; [|discriminate].
    apply elem_of_cons in Hin as [->|Hin].
    + pose proof (for_of_step_ok env cs wa) as Hs. rewrite Hrun in Hs.
      apply (step_marks _ _ Hs). by eapply handle_change_marks.
    + by eapply IH.
Qed.

(** Changes whose keys are all marked go through as skips. *)
Lemma for_of_all_marked (cs : list Change) : forall w,
  (forall c, c ∈ cs -> actionable c = true ->
             already_sent (DB w) (change_key c) = true) ->
  exists w', for_of cs (handle_change env) w = (Ret tt, w')
             /\ outbox w' = outbox w
             /\ sent_keys (DB w') = sent_keys (DB w)
             /\ dm_text (DB w') = dm_text (DB w)
             /\ file w' = file w.
Proof.
  induction cs as [|c cs IH]; intros w Hall; [by exists w|].
  cbn [for_of]. unfold bind.
  assert (Hstep : exists wa, handle_change env c w = (Ret tt, wa)
                             /\ outbox wa = outbox w
                             /\ sent_keys (DB wa) = sent_keys (DB w)
                             /\ dm_text (DB wa) = dm_text (DB w)
                             /\ file wa = file w).
  { destruct (actionable c) eqn:Hc.
    - rewrite handle_change_actionable by done. cbv zeta.
      rewrite (Hall c) by (done || by left). by eexists.
    - rewrite handle_change_inert by done. by eexists. }
  destruct Hstep as (wa & -> & Ho & Hk & Ht & Hf).
  destruct (IH wa) as (w' & Hrun & Ho' & Hk' & Ht' & Hf').
  - intros c' Hin Hc'. unfold already_sent. rewrite Hk.
    apply Hall; [by right | done].
  - exists w'. rewrite Hrun. repeat split; congruence.
Qed.

Lemma redelivery_sends_nothing (body : Payload) w :
  fst (process_payload env body w) = Ret tt ->
  let w1 := deliver env body w in
  fst (process_payload env body w1) = Ret tt
  /\ outbox (deliver env body w1) = outbox w1
  /\ sent_keys (DB (deliver env body w1)) = sent_keys (DB w1)
  /\ dm_text (DB (deliver env body w1)) = dm_text (DB w1).
Proof.
  destruct (decide (payload_object body = Some (str "instagram"))) as [Hobj|Hobj].
  - cbv zeta. rewrite !process_payload_changes, !deliver_changes by done.
    unfold try_catch.
    destruct (for_of (changes_of body) (handle_change env) w) as [[[]|e] w1] eqn:Hrun;
      [|discriminate].
    intros _.
    destruct (for_of_all_marked (changes_of body) w1) as (w2 & Hrun2 & Ho & Hk & Ht & _).
    { by apply (for_of_marks_all (changes_of body) w w1). }
    by rewrite Hrun2.
  - intros _. cbv zeta. rewrite !deliver_foreign by done.
    unfold process_payload. apply strict_eq_false in Hobj. by rewrite Hobj.
Qed.

Lemma outbox_try_catch (m : M unit) w :
  outbox (try_catch m (on_failure env) w) = outbox (snd (m w)).
Proof. unfold try_catch. by destruct (m w) as [[[]|e] w1]. Qed.

(** After a failed call, the next delivery of the same payload passes the
    changes before the failed one and starts with the failed one. *)
Lemma retry_resumes (body : Payload) w w1 (pre rest : list Change)
    (comment_id post_id commenter_id : jsstr) e :
  payload_object body = Some (str "instagram") ->
  changes_of body = pre ++ comment_event comment_id post_id commenter_id :: rest ->
  comment_id <> [] -> post_id <> [] -> commenter_id <> [] ->
  for_of pre (handle_change env) w = (Ret tt, w1) ->
  already_sent (DB w1) (dedupe_key (Some post_id) (Some commenter_id)) = false ->
  outbound_failure (graph env (length (outbox w1)) (reply_call env comment_id w1)) = Some e ->
  let w' := deliver env body w in
  exists later : list OutCall,
    outbox (deliver env body w') = outbox w' ++ reply_call env comment_id w' :: later.
Proof.
  intros Hobj Hcs Hc Hp Hu Hpre Hfresh Hfail w'.
  set (ev := comment_event comment_id post_id commenter_id) in *.
  assert (Hw' : w' = on_failure env e (push_call (reply_call env comment_id w1) w1)).
  { subst w'. rewrite deliver_changes by done. unfold try_catch.
    rewrite Hcs.
    rewrite (for_of_throws (handle_change env) pre ev rest w w1
               (push_call (reply_call env comment_id w1) w1) e Hpre); [done|].
    subst ev. rewrite handle_change_event by done. cbv zeta.
    by rewrite Hfresh, Hfail. }
  assert (Hkeys : sent_keys (DB w') = sent_keys (DB w1)) by (by rewrite Hw').
  destruct (for_of_all_marked pre w') as (w2 & Hrun & Ho & Hk & Ht & _).
  { intros c Hin Hact. unfold already_sent. rewrite Hkeys.
    by apply (for_of_marks_all pre w w1). }
  assert (Hfresh2 : already_sent (DB w2) (dedupe_key (Some post_id) (Some commenter_id))
                    = false).
  { unfold already_sent in *. by rewrite Hk, Hkeys. }
  assert (Hcall : reply_call env comment_id w2 = reply_call env comment_id w').
  { unfold reply_call. f_equal. by apply reply_message_dm_text. }
  rewrite deliver_changes by done. rewrite outbox_try_catch, Hcs.
  rewrite for_of_app. unfold bind. rewrite Hrun. cbn [for_of]. unfold bind.
  subst ev. rewrite handle_change_event by done. cbv zeta. rewrite Hfresh2.
  destruct (outbound_failure
              (graph env (length (outbox w2)) (reply_call env comment_id w2))).
  - exists []. cbn [snd outbox]. by rewrite Ho, Hcall.
  - match goal with |- context [for_of rest _ ?wa] =>
      destruct (for_of_calls env rest wa) as (calls & Hext & _) end.
    exists calls. rewrite Hext. cbn [snd outbox saveData addLogDB read_clock set_DB mark_sent push_call].
    by rewrite Ho, Hcall, <- app_assoc.
Qed.

End Redelivery.

(** X10. With a clock that never reads zero, a delivery that went through
    without an exception can be delivered again at once: the second
    delivery raises no exception either, issues no call and leaves the
    dedupe set and the reply text as they are. *)
Theorem X10_redelivery_is_idempotent (env : Env) (body : Payload) (w : World) :
  (forall n, clock env n <> 0) ->
  fst (process_payload env body w) = Ret tt ->
  let w1 := deliver env body w in
  fst (process_payload env body w1) = Ret tt
  /\ outbox (deliver env body w1) = outbox w1
  /\ sent_keys (DB (deliver env body w1)) = sent_keys (DB w1)
  /\ dm_text (DB (deliver env body w1)) = dm_text (DB w1).
Proof.
  intros Hclock Hok. by apply redelivery_sends_nothing.
Qed.

Lemma X10_redelivery_is_idempotent_witness :
  outbox (deliver sample_env sample_batch (deliver sample_env sample_batch (boot None)))
  = outbox (deliver sample_env sample_batch (boot None)).
Proof.
  refine (proj1 (proj2 (X10_redelivery_is_idempotent sample_env sample_batch (boot None) _ _))).
  - intros n. cbn. lia.
  - reflexivity.
Defined.

(** X11. With a clock that never reads zero: when a delivery was cut short
    by a failed call, delivering the same payload again issues no call for
    the changes before the failed one, and its first call is the reply to
    the comment whose call had failed. *)
Theorem X11_retry_resumes_at_failed_change (env : Env) (body : Payload) (w w1 : World)
    (pre rest : list Change) (comment_id post_id commenter_id : jsstr) (e : JsError) :
  (forall n, clock env n <> 0) ->
  payload_object body = Some (str "instagram") ->
  changes_of body = pre ++ comment_event comment_id post_id commenter_id :: rest ->
  comment_id <> [] -> post_id <> [] -> commenter_id <> [] ->
  for_of pre (handle_change env) w = (Ret tt, w1) ->
  already_sent (DB w1) (dedupe_key (Some post_id) (Some commenter_id)) = false ->
  outbound_failure (graph env (length (outbox w1)) (reply_call env comment_id w1)) = Some e ->
  let w' := deliver env body w in
  exists later : list OutCall,
    outbox (deliver env body w') = outbox w' ++ reply_call env comment_id w' :: later.
Proof.
  intros Hclock. by apply retry_resumes.
Qed.

Lemma X11_retry_resumes_at_failed_change_witness :
  let w' := deliver flaky_env sample_batch (boot None) in
  exists later : list OutCall,
    outbox (deliver flaky_env sample_batch w')
    = outbox w' ++ reply_call flaky_env (str "c2") w' :: later.
Proof.
  refine (X11_retry_resumes_at_failed_change flaky_env sample_batch (boot None)
            (snd (for_of [comment_event (str "c1") (str "m1") (str "u7")]
                    (handle_change flaky_env) (boot None)))
            [comment_event (str "c1") (str "m1") (str "u7")]
            [comment_event (str "c3") (str "m1") (str "u9")]
            (str "c2") (str "m1") (str "u8")
            {| err_name := str "Error"; err_message := str "{error:190}" |}
            _ _ _ _ _ _ _ _ _);
    try reflexivity; try discriminate.
  intros n. cbn. lia.
Defined.

(** ** Pairs a delivery does not carry *)

Lemma handle_change_other_key env (c : Change) w (k : jsstr) :
  (actionable c = true -> change_key c <> k) ->
  sent_keys (DB (snd (handle_change env c w))) !! k = sent_keys (DB w) !! k.
Proof.
  intros Hk. destruct (actionable c) eqn:Hc.
  - rewrite handle_change_actionable by done. cbv zeta.
    destruct (already_sent _ _); [done|].
    destruct (outbound_failure _); cbn; [done|].
    rewrite lookup_insert_ne; [done | by apply Hk].
  - by rewrite handle_change_inert.
Qed.

Lemma for_of_other_key env (k : jsstr) (cs : list Change) : forall w,
  (forall c, c ∈ cs -> actionable c = true -> change_key c <> k) ->
  sent_keys (DB (snd (for_of cs (handle_change env) w))) !! k = sent_keys (DB w) !! k.
Proof.
  induction cs as [|c cs IH]; intros w Hall; [done|].
  cbn [for_of]. unfold bind.
  pose proof (handle_change_other_key env c w k) as Hc.
  destruct (handle_change env c w) as [[[]|e] w1]; cbn [snd] in *.
  - rewrite IH; [apply Hc|].
    + intros Hact. apply Hall; [by left | done].
    + intros c' Hin. apply Hall. by right.
  - apply Hc. intros Hact. apply Hall; [by left | done].
Qed.

(** X12. A webhook delivery leaves the dedupe entry of a key as it was,
    present or absent and with the same send time, unless the payload
    carries a change with all three identifiers whose key it is. *)
Theorem X12_other_pairs_untouched (env : Env) (body : Payload) (w : World) (k : jsstr) :
  (forall c, c ∈ changes_of body -> actionable c = true -> change_key c <> k) ->
  sent_keys (DB (deliver env body w)) !! k = sent_keys (DB w) !! k
  /\ already_sent (DB (deliver env body w)) k = already_sent (DB w) k.
Proof.
  intros Hall.
  assert (Hk : sent_keys (DB (deliver env body w)) !! k = sent_keys (DB w) !! k).
  { destruct (decide (payload_object body = Some (str "instagram"))) as [Hobj|Hobj].
    - rewrite deliver_changes by done. unfold try_catch.
      pose proof (for_of_other_key env k (changes_of body) w Hall) as Hs.
      by destruct (for_of _ _ w) as [[[]|e] w1].
    - by rewrite deliver_foreign. }
  split; [exact Hk|]. unfold already_sent. by rewrite Hk.
Qed.

Lemma X12_other_pairs_untouched_witness :
  already_sent (DB (deliver sample_env
                      (delivery [comment_event (str "c9") (str "m2") (str "u1")])
                      sample_world)) (str "m1:u1")
  = already_sent (DB sample_world) (str "m1:u1").
Proof.
  refine (proj2 (X12_other_pairs_untouched sample_env
                   (delivery [comment_event (str "c9") (str "m2") (str "u1")])
                   sample_world (str "m1:u1") _)).
  intros c Hin _. rewrite changes_of_delivery in Hin.
  apply list_elem_of_singleton in Hin as ->. discriminate.
Defined.

(** ** What the error entry says *)

Lemma deliver_event_failed env comment_id post_id commenter_id w e :
  comment_id <> [] -> post_id <> [] -> commenter_id <> [] ->
  already_sent (DB w) (dedupe_key (Some post_id) (Some commenter_id)) = false ->
  outbound_failure (graph env (length (outbox w)) (reply_call env comment_id w)) = Some e ->
  logs (DB (deliver env (delivery [comment_event comment_id post_id commenter_id]) w))
  = error_entry (clock env (clock_reads w)) (failure_reason e) :: take 199 (logs (DB w)).
Proof.
  intros Hc Hp Hu Hfresh Hfail.
  pose proof (deliver_event_send env post_id commenter_id Hp Hu comment_id w Hc Hfresh) as Hd.
  cbv beta zeta in Hd. by rewrite Hd, Hfail.
Qed.

(** X13. When the reply to a comment fails, the "error" entry that heads
    the log carries: the platform's JSON answer, as serialised, when the
    answer arrived with a status outside 2xx; the message of the exception
    when [fetch] or the JSON decoding threw one with a message; and the
    name of the exception when its message is empty. *)
Theorem X13_error_entry_reason (env : Env) (comment_id post_id commenter_id : jsstr)
    (w : World) :
  comment_id <> [] -> post_id <> [] -> commenter_id <> [] ->
  already_sent (DB w) (dedupe_key (Some post_id) (Some commenter_id)) = false ->
  let answer := graph env (length (outbox w)) (reply_call env comment_id w) in
  let w' := deliver env (delivery [comment_event comment_id post_id commenter_id]) w in
  let entry := fun reason =>
    error_entry (clock env (clock_reads w)) reason :: take 199 (logs (DB w)) in
  (forall j, answer = Replied false j -> j <> [] -> logs (DB w') = entry j)
  /\ (forall e, answer = FetchThrows e -> err_message e <> [] ->
                logs (DB w') = entry (err_message e))
  /\ (forall e, answer = FetchThrows e -> err_message e = [] ->
                logs (DB w') = entry (err_name e)).
Proof.
  intros Hc Hp Hu Hfresh answer w' entry. subst answer w' entry. cbv beta.
  repeat apply conj.
  - intros j Hans Hj.
    rewrite (deliver_event_failed env _ _ _ w {| err_name := str "Error"; err_message := j |})
      by (done || by rewrite Hans).
    unfold failure_reason. cbn [err_message].
    apply str_truthy_iff in Hj. by rewrite Hj.
  - intros e Hans He.
    rewrite (deliver_event_failed env _ _ _ w e) by (done || by rewrite Hans).
    unfold failure_reason. apply str_truthy_iff in He. by rewrite He.
  - intros e Hans He.
    rewrite (deliver_event_failed env _ _ _ w e) by (done || by rewrite Hans).
    unfold failure_reason, error_to_string. rewrite He. cbn.
    by destruct (err_name e).
Qed.

Lemma X13_error_entry_reason_witness :
  logs (DB (deliver flaky_env
              (delivery [comment_event (str "c2") (str "m1") (str "u8")])
              (deliver flaky_env
                 (delivery [comment_event (str "c1") (str "m1") (str "u7")]) (boot None))))
  = [ error_entry 1700000000002 (str "{error:190}");
      sent_entry 1700000000001 (str "m1:u7") (str "c1") ].
Proof.
  refine (proj1 (X13_error_entry_reason flaky_env (str "c2") (str "m1") (str "u8")
                   (deliver flaky_env
                      (delivery [comment_event (str "c1") (str "m1") (str "u7")])
                      (boot None)) _ _ _ _) (str "{error:190}") _ _);
    try discriminate; reflexivity.
Defined.

(** ** Who gets in *)

(** X14. [requireAuth] lets a request through exactly when a non-empty
    admin password is configured and either [query.pass] equals it, or
    [query.pass] is missing or empty and the [x-admin-pass] header equals
    it; a non-empty [query.pass] is the one compared, whatever the header
    says.  Every other request is answered 401. *)
Theorem X14_requireAuth_decides (env : Env) (req : AdminRequest) :
  (requireAuth env req = None <->
   exists pw : jsstr,
     pw <> [] /\ ADMIN_PASSWORD env = Some pw
     /\ (query_pass req = Some pw
         \/ (truthy (query_pass req) = false /\ header_x_admin_pass req = Some pw)))
  /\ (requireAuth env req = None \/ requireAuth env req = Some unauthorized).
Proof.
  split; [split|].
  - intros Hnone. apply requireAuth_None in Hnone as [Hset Heq].
    destruct (ADMIN_PASSWORD env) as [pw|] eqn:Hpw; [|discriminate].
    exists pw. cbn in Hset. apply str_truthy_iff in Hset.
    split; [done|]. split; [done|].
    unfold supplied_pass, or_else in Heq.
    destruct (truthy (query_pass req)) eqn:Hq; [by left | by right].
  - intros (pw & Hpw & Hadmin & Hpass). apply requireAuth_authorized.
    apply str_truthy_iff in Hpw. split; [by rewrite Hadmin|].
    rewrite Hadmin. unfold supplied_pass, or_else.
    destruct Hpass as [-> | [-> ->]]; [|done]. cbn. by rewrite Hpw.
  - unfold requireAuth.
    destruct (negb (truthy (ADMIN_PASSWORD env))
              || negb (strict_eq (supplied_pass req) (ADMIN_PASSWORD env)));
      [by right | by left].
Qed.

Lemma X14_requireAuth_decides_witness :
  requireAuth sample_env (mkAdmin (Some []) (Some (str "hunter2")) None) = None
  /\ exists pw : jsstr,
       pw <> [] /\ ADMIN_PASSWORD sample_env = Some pw
       /\ (query_pass (mkAdmin (Some (str "hunter2")) (Some (str "nope")) None) = Some pw
           \/ (truthy (query_pass (mkAdmin (Some (str "hunter2")) (Some (str "nope")) None))
               = false
               /\ header_x_admin_pass (mkAdmin (Some (str "hunter2")) (Some (str "nope")) None)
                  = Some pw)).
Proof.
  split.
  - apply (proj1 (X14_requireAuth_decides sample_env
                    (mkAdmin (Some []) (Some (str "hunter2")) None))).
    exists (str "hunter2"). split; [discriminate|]. split; [reflexivity|].
    right. split; reflexivity.
  - apply (proj1 (X14_requireAuth_decides sample_env
                    (mkAdmin (Some (str "hunter2")) (Some (str "nope")) None))).
    reflexivity.
Defined.

(** ** The dashboard *)

Lemma escape_angle_cons (c : N) (s : jsstr) :
  escape_angle (c :: s)
  = (if (c =? 60)%N then str "&lt;" else if (c =? 62)%N then str "&gt;" else [c])
    ++ escape_angle s.
Proof. reflexivity. Qed.

Lemma escape_angle_clean (s : jsstr) :
  (60%N ∉ escape_angle s) /\ (62%N ∉ escape_angle s).
Proof.
  induction s as [|c s [IH60 IH62]]; [split; apply not_elem_of_nil|].
  rewrite escape_angle_cons.
  destruct (N.eqb_spec c 60) as [->|H60]; [|destruct (N.eqb_spec c 62) as [->|H62]];
    split; rewrite elem_of_app; intros [Hin|Hin]; try done;
    cbn in Hin;
    repeat (apply elem_of_cons in Hin as [Hin|Hin]; [try discriminate Hin; congruence|]);
    by apply elem_of_nil in Hin.
Qed.

Lemma escape_angle_id (s : jsstr) :
  60%N ∉ s -> 62%N ∉ s -> escape_angle s = s.
Proof.
  induction s as [|c s IH]; [done|].
  intros H60 H62. apply not_elem_of_cons in H60 as [H60 H60s].
  apply not_elem_of_cons in H62 as [H62 H62s].
  rewrite escape_angle_cons, IH by done.
  destruct (N.eqb_spec c 60) as [->|_]; [done|].
  by destruct (N.eqb_spec c 62) as [->|_].
Qed.

Lemma escape_angle_app (s1 s2 : jsstr) :
  escape_angle (s1 ++ s2) = escape_angle s1 ++ escape_angle s2.
Proof. unfold escape_angle. apply flat_map_app. Qed.

(** X15. An authorised GET /admin changes nothing and answers 200 with a
    page built from the query password, all retained log entries and the
    escaped reply text.  Escaping goes character by character: "<" becomes
    "&lt;", ">" becomes "&gt;", every other character stays, in the same
    order.  So the text put into the page holds neither "<" nor ">" and is
    the stored text itself when that holds neither; "&" is not escaped. *)
Theorem X15_dashboard_text_escaped (env : Env) (req : AdminRequest) (w : World) :
  authorized env req ->
  get_admin env req w
  = ({| status := 200;
        body := Dashboard (escape_angle (dm_text (DB w))) (logs (DB w)) (query_pass req) |},
     w)
  /\ (forall s1 s2 : jsstr, escape_angle (s1 ++ s2) = escape_angle s1 ++ escape_angle s2)
  /\ escape_angle [60%N] = str "&lt;"
  /\ escape_angle [62%N] = str "&gt;"
  /\ (forall c : N, c <> 60%N -> c <> 62%N -> escape_angle [c] = [c])
  /\ (60%N ∉ escape_angle (dm_text (DB w)))
  /\ (62%N ∉ escape_angle (dm_text (DB w)))
  /\ (60%N ∉ dm_text (DB w) -> 62%N ∉ dm_text (DB w) ->
      escape_angle (dm_text (DB w)) = dm_text (DB w)).
Proof.
  intros Hauth.
  split. { unfold get_admin. by rewrite (requireAuth_authorized env req Hauth). }
  split; [apply escape_angle_app|]. split; [reflexivity|]. split; [reflexivity|].
  split.
  { intros c H60 H62. rewrite escape_angle_cons. cbn.
    destruct (N.eqb_spec c 60) as [->|_]; [done|].
    by destruct (N.eqb_spec c 62) as [->|_]. }
  destruct (escape_angle_clean (dm_text (DB w))) as [H60 H62].
  split; [done|]. split; [done|]. apply escape_angle_id.
Qed.

Lemma X15_dashboard_text_escaped_witness :
  get_admin sample_env (mkAdmin (Some (str "hunter2")) None None)
    (set_DB {| dm_text := str "see <b>bio</b> & more"; sent_keys := ∅; logs := [] |}
       sample_world)
  = ({| status := 200;
        body := Dashboard (str "see &lt;b&gt;bio&lt;/b&gt; & more") []
                  (Some (str "hunter2")) |},
     set_DB {| dm_text := str "see <b>bio</b> & more"; sent_keys := ∅; logs := [] |}
       sample_world).
Proof.
  refine (proj1 (X15_dashboard_text_escaped sample_env
                   (mkAdmin (Some (str "hunter2")) None None)
                   (set_DB {| dm_text := str "see <b>bio</b> & more"; sent_keys := ∅;
                              logs := [] |} sample_world) _)).
  split; reflexivity.
Defined.

(** * The handler in turns *)

(** ** Run without interruption, it is the handler of the sections above *)

Lemma uninterrupted_and_then {A B} (o : Outcome A) (f : A -> AM B) :
  uninterrupted (and_then o f)
  = match uninterrupted o with
    | (Ret a, w) => uninterrupted (f a w)
    | (Throw e, w) => (Throw e, w)
    end.
Proof.
  induction o as [[a|e] w | w k IH]; cbn; [done | done | apply IH].
Qed.

Lemma uninterrupted_abind {A B} (m : AM A) (f : A -> AM B) (m' : M A) (f' : A -> M B) w :
  uninterrupted (m w) = m' w ->
  (forall a w', uninterrupted (f a w') = f' a w') ->
  uninterrupted (abind m f w) = bind m' f' w.
Proof.
  intros Hm Hf. unfold abind, bind. rewrite uninterrupted_and_then, Hm.
  destruct (m' w) as [[a|e] w']; [apply Hf | done].
Qed.

Lemma uninterrupted_sync {A} (m : M A) w : uninterrupted (sync m w) = m w.
Proof. unfold sync. by destruct (m w). Qed.

Lemma uninterrupted_sendPrivateReply env comment_id message w :
  uninterrupted (sendPrivateReply_a env comment_id message w)
  = sendPrivateReply env comment_id message w.
Proof.
  unfold sendPrivateReply_a, sendPrivateReply, push_call. cbn.
  destruct (graph env _ _) as [e|[] j]; reflexivity.
Qed.

Lemma uninterrupted_handle_change env (c : Change) w :
  uninterrupted (handle_change_a env c w) = handle_change env c w.
Proof.
  unfold handle_change_a, handle_change.
  destruct (negb _ || negb _ || negb _); [apply uninterrupted_sync|].
  destruct (already_sent _ _); [apply uninterrupted_sync|].
  apply uninterrupted_abind; [apply uninterrupted_sendPrivateReply|].
  intros _ w1. apply uninterrupted_abind; [apply uninterrupted_sync|].
  intros _ w2. apply uninterrupted_abind; [apply uninterrupted_sync|].
  intros _ w3. apply uninterrupted_sync.
Qed.

Lemma uninterrupted_for_of_map {A B} (g : A -> B) (fa : B -> AM unit) (f : A -> M unit)
    (xs : list A) :
  (forall x w, uninterrupted (fa (g x) w) = f x w) ->
  forall w, uninterrupted (for_of_a (map g xs) fa w) = for_of xs f w.
Proof.
  intros Hf. induction xs as [|x xs IH]; intros w; [done|].
  cbn [map for_of_a for_of]. apply uninterrupted_abind; [apply Hf|].
  intros _ w'. apply IH.
Qed.

Lemma uninterrupted_process env (body : Payload) w :
  uninterrupted (process_a env (raw_of body) w) = process_payload env body w.
Proof.
  unfold process_a, process_payload, raw_of. cbn [raw_object raw_entry].
  destruct (negb _); [done|].
  destruct (payload_entry body) as [es|]; [|done]. cbn [items_of iterate_a default].
  apply uninterrupted_for_of_map. intros entry w1.
  destruct (entry_changes entry) as [cs|]; [|done]. cbn [raw_changes items_of iterate_a default].
  apply uninterrupted_for_of_map. intros c w2. apply uninterrupted_handle_change.
Qed.

Lemma uninterrupted_catching (o : Outcome unit) (h : JsError -> World -> World) :
  uninterrupted (catching o h)
  = match uninterrupted o with
    | (Ret _, w) => (Ret tt, w)
    | (Throw err, w) => (Ret tt, h err w)
    end.
Proof.
  induction o as [[a|e] w | w k IH]; cbn; [done | done | apply IH].
Qed.

(** The handler of the sections above is the handler in turns, resumed each
    time before any other request is served, on a payload whose [entry] and
    [changes] are arrays without [null]. *)
Lemma post_webhook_uninterrupted env (body : Payload) w :
  fst (post_webhook_a env (raw_of body) w) = fst (post_webhook env body w)
  /\ deliver_raw env (raw_of body) w = deliver env body w.
Proof.
  split; [done|].
  unfold deliver_raw, deliver, post_webhook_a, post_webhook, try_catch. cbn [snd].
  rewrite uninterrupted_catching, uninterrupted_process.
  by destruct (process_payload env body w) as [[[]|e] w'].
Qed.

(** ** Deliveries that overlap *)

(** C1. The code does not keep to one reply per pair.  Two deliveries for
    the pair ("m7", "u3"), the second arriving while the first still waits
    for the platform, both find the key unmarked and both issue a reply: two
    calls, two "sent" entries, no "skip".  Handled one after the other, the
    same two deliveries give one call and a skip.  And when the platform
    accepts the first reply but [r.json()] throws on its answer, the key is
    left unmarked and the next delivery, though handled afterwards, replies
    again. *)
Theorem C1_overlapping_deliveries_reply_twice :
  let first := delivery [comment_event (str "c1") (str "m7") (str "u3")] in
  let second := delivery [comment_event (str "c2") (str "m7") (str "u3")] in
  let call := fun cid : jsstr =>
    {| call_comment_id := cid; call_message := default_dm_text;
       call_access_token := Some (str "page-token") |} in
  let overlapped :=
    run sample_env [Arrives (POST_webhook first); Arrives (POST_webhook second);
                    Answers 0; Answers 0] (power_on None) in
  let in_turn :=
    run sample_env [Arrives (POST_webhook first); Answers 0;
                    Arrives (POST_webhook second)] (power_on None) in
  let garbled :=
    run garbled_env [Arrives (POST_webhook first); Answers 0;
                     Arrives (POST_webhook second); Answers 0] (power_on None) in
  (outbox (shared overlapped) = [call (str "c1"); call (str "c2")]
   /\ (type <$> logs (DB (shared overlapped))) = [sent; sent]
   /\ suspended overlapped = [])
  /\ (outbox (shared in_turn) = [call (str "c1")]
      /\ (type <$> logs (DB (shared in_turn))) = [skip; sent]
      /\ suspended in_turn = [])
  /\ (outbox (shared garbled) = [call (str "c1"); call (str "c2")]
      /\ (type <$> logs (DB (shared garbled))) = [sent; error]
      /\ suspended garbled = []).
Proof.
  cbv zeta. repeat apply conj; vm_compute; reflexivity.
Qed.

(** ** What a turn sends *)

Section Turns.

Variable env : Env.



Lemma reply_call_dm_text comment_id w0 w1 :
  dm_text (DB w1) = dm_text (DB w0) ->
  reply_call env comment_id w1 = reply_call env comment_id w0.
Proof. intros Ht. unfold reply_call. f_equal. by apply reply_message_dm_text. Qed.














End Turns.


(** ** Payloads of any shape *)

Section Shapes.

Variable env : Env.

Local Abbreviation on_change :=
  (fun change : option Change =>
     match change with
     | None => sync (throw (type_error env change_is_null))
     | Some change => handle_change_a env change
     end).

Local Abbreviation on_entry :=
  (fun entry : option RawEntry =>
     match entry with
     | None => sync (throw (type_error env entry_is_null))
     | Some entry => iterate_a env changes_not_iterable (raw_changes entry) on_change
     end).

Lemma visit_changes_run (cs : list (option Change)) : forall w,
  uninterrupted (for_of_a cs on_change w)
  = (for_of (fst (visit_changes cs)) (handle_change env)
     ;;; ending env (snd (visit_changes cs))) w.
Proof.
  induction cs as [|[c|] cs IH]; intros w; [done | | done].
  cbn [for_of_a visit_changes]. unfold abind.
  rewrite uninterrupted_and_then, uninterrupted_handle_change.
  destruct (visit_changes cs) as [l stop] eqn:Hv. cbn [fst snd] in *.
  cbn [for_of]. unfold bind at 1 2.
  destruct (handle_change env c w) as [[[]|e] w1]; [|done].
  rewrite IH. reflexivity.
Qed.

Lemma bind_throws {A} (m : M unit) (e : JsError) w :
  exists e' w', (m ;;; (throw e : M A)) w = (Throw e', w').
Proof.
  unfold bind, throw. destruct (m w) as [[[]|e1] w1]; by eexists _, _.
Qed.

Lemma visit_entries_run (es : list (option RawEntry)) : forall w,
  uninterrupted (for_of_a es on_entry w)
  = (for_of (fst (visit_entries es)) (handle_change env)
     ;;; ending env (snd (visit_entries es))) w.
Proof.
  induction es as [|[entry|] es IH]; intros w; [done | | done].
  cbn [for_of_a visit_entries]. unfold abind. rewrite uninterrupted_and_then.
  destruct (raw_changes entry) as [| |cs]; cbn [iterate_a].
  - cbn. apply IH.
  - done.
  - rewrite visit_changes_run.
    destruct (visit_changes cs) as [l [site|]]; cbn [fst snd ending].
    + destruct (bind_throws (A := unit) (for_of l (handle_change env))
                  (type_error env site) w) as (e' & w' & ->).
      reflexivity.
    + rewrite bind_unit.
      destruct (visit_entries es) as [l' stop] eqn:Hv. cbn [fst snd] in *.
      unfold bind at 1. rewrite for_of_app. unfold bind.
      destruct (for_of l (handle_change env) w) as [[[]|e] w1]; [|done].
      rewrite IH. reflexivity.
Qed.

Lemma process_visit (body : RawPayload) w :
  raw_object body = Some (str "instagram") ->
  uninterrupted (process_a env body w)
  = (for_of (fst (visit body)) (handle_change env) ;;; ending env (snd (visit body))) w.
Proof.
  intros Hobj. unfold process_a, visit. apply strict_eq_true in Hobj. rewrite Hobj.
  cbn [negb]. destruct (raw_entry body) as [| |es]; [done | done |].
  apply visit_entries_run.
Qed.

Lemma deliver_raw_visit (body : RawPayload) w :
  raw_object body = Some (str "instagram") ->
  deliver_raw env body w
  = try_catch (for_of (List.filter actionable (fst (visit body))) (handle_change env)
               ;;; ending env (snd (visit body))) (on_failure env) w.
Proof.
  intros Hobj. unfold deliver_raw, post_webhook_a, try_catch. cbn [snd].
  rewrite uninterrupted_catching, process_visit by done.
  unfold bind. rewrite for_of_filter_actionable.
  destruct (for_of _ _ w) as [[[]|e] w1]; [|done].
  by destruct (ending env (snd (visit body)) w1) as [[[]|e] w2].
Qed.

End Shapes.

(** X7. A payload whose [object] is not "instagram" ends the handler at
    once with nothing changed.  In an "instagram" payload the loop reaches
    the changes up to the first place that raises a [TypeError] ([entry] or
    a [changes] that is truthy but not iterable, an entry or a change that
    is [null]); of those, the changes without a comment id, a media id or a
    sender id (missing or empty) are passed over without trace, so that the
    delivery, run without interruption, ends as the one of the remaining
    changes followed by that [TypeError], if there is one.  When no change
    remains, a payload without such a place changes nothing, and one with
    such a place gets an "error" entry worded by the engine and a write of
    the file. *)
Theorem X7_shapes_and_incomplete_changes (env : Env) (body : RawPayload) (w : World) :
  (raw_object body <> Some (str "instagram") ->
   snd (post_webhook_a env body w) = Settled (Ret tt) w)
  /\ (raw_object body = Some (str "instagram") ->
      deliver_raw env body w
      = try_catch (for_of (List.filter actionable (fst (visit body))) (handle_change env)
                   ;;; ending env (snd (visit body))) (on_failure env) w)
  /\ (raw_object body = Some (str "instagram") ->
      List.filter actionable (fst (visit body)) = [] ->
      (snd (visit body) = None -> deliver_raw env body w = w)
      /\ (forall site, snd (visit body) = Some site ->
          engine_says env site <> [] ->
          deliver_raw env body w
          = saveData (addLogDB env error (str "Webhook processing failed")
                        [(str "error", engine_says env site)] w))).
Proof.
  split; [|split].
  - intros Hobj. unfold post_webhook_a, process_a. cbn [snd].
    apply strict_eq_false in Hobj. by rewrite Hobj.
  - apply deliver_raw_visit.
  - intros Hobj Hnone. rewrite deliver_raw_visit by done. rewrite Hnone. split.
    + by intros ->.
    + intros site -> Hsays. unfold try_catch. cbn.
      unfold on_failure, failure_reason, type_error. cbn [err_message].
      apply str_truthy_iff in Hsays. by rewrite Hsays.
Qed.

Lemma X7_shapes_and_incomplete_changes_witness :
  snd (post_webhook_a sample_env
         {| raw_object := Some (str "page");
            raw_entry := Items [Some {| raw_changes :=
                                  Items [Some (comment_event (str "c1") (str "m1") (str "u2"))] |}] |}
         sample_world)
  = Settled (Ret tt) sample_world
  /\ deliver_raw sample_env
       {| raw_object := Some (str "instagram");
          raw_entry := Items [Some {| raw_changes := Items [Some (mkChange None)] |}; None] |}
       sample_world
     = saveData (addLogDB sample_env error (str "Webhook processing failed")
                   [(str "error", str "Cannot read properties of null")] sample_world).
Proof.
  split.
  - apply (proj1 (X7_shapes_and_incomplete_changes sample_env _ sample_world)).
    discriminate.
  - refine (proj2 (proj2 (proj2 (X7_shapes_and_incomplete_changes sample_env
              {| raw_object := Some (str "instagram");
                 raw_entry := Items [Some {| raw_changes := Items [Some (mkChange None)] |};
                                     None] |}
              sample_world)) _ _) entry_is_null _ _);
      try reflexivity.
    discriminate.
Defined.

(** ** One key for every reply, when nothing comes in between *)

(** X9. Take a webhook delivery whose handler is resumed each time before
    any other request is served, so that no other handler runs while it
    waits.  While no stored send time is zero and the clock never reads
    zero, such a delivery issues exactly as many calls as it adds keys to
    the dedupe set, plus one when it ended in a failed call; and no stored
    send time is zero afterwards.  (Deliveries that overlap do not keep this
    count: see the two calls for one key above.) *)
Theorem X9_one_new_key_per_reply (env : Env) (body : Payload) (w : World) :
  (forall n, clock env n <> 0) ->
  stamps_nonzero (DB w) ->
  let ended := uninterrupted (process_a env (raw_of body) w) in
  let w' := deliver_raw env (raw_of body) w in
  stamps_nonzero (DB w')
  /\ (length (outbox w') + size (sent_keys (DB w))
      = length (outbox w) + size (sent_keys (DB w')) + threw (fst ended))%nat.
Proof.
  intros Hclock Hw. cbv zeta.
  rewrite uninterrupted_process, (proj2 (post_webhook_uninterrupted env body w)).
  by apply deliver_accounting.
Qed.

Lemma X9_one_new_key_per_reply_witness :
  let w' := deliver_raw flaky_env (raw_of sample_batch) (boot None) in
  (length (outbox w') + size (sent_keys (DB (boot None)))
   = length (outbox (boot None)) + size (sent_keys (DB w'))
     + threw (fst (uninterrupted (process_a flaky_env (raw_of sample_batch) (boot None)))))%nat.
Proof.
  refine (proj2 (X9_one_new_key_per_reply flaky_env sample_batch (boot None) _ _)).
  - intros n. cbn. lia.
  - intros k t Hk. cbn in Hk. by rewrite lookup_empty in Hk.
Defined.
